(** * Stock advisor front end: intent dispatch, parameter extraction, reply formatting

    A shallow embedding of the decision logic of the chat component
    [ChatInterface] (second component of
    [frontend/components/StockManager.tsx]) and of the shared helper
    [parseStockSymbols] ([frontend/lib/utils.ts]).

    - ECMAScript strings are sequences of UTF-16 code units; they are modelled
      as [list N].
    - The Unicode case mappings and the number-to-text conversions are
      services of the JavaScript host; they are fields of the class [Host],
      and the general theorems hold for every host.
    - A regular expression is modelled by the function that decides where its
      leftmost match starts and what its capture group holds. *)

From Stdlib Require Import String Ascii List NArith ZArith QArith Lia Bool.
From Stdlib Require Import DecimalString.
From Equations Require Import Equations.
Import ListNotations.

(* ===================================================================== *)
(** ** ECMAScript string primitives *)
(* ===================================================================== *)

Module JS.

Open Scope N_scope.

Definition code_unit := N.
Definition jsstring := list code_unit.

(** A string literal of the source, one code unit per (Basic Latin) character. *)
Definition lit (s : string) : jsstring :=
  map N_of_ascii (list_ascii_of_string s).

(** Characters of the source's literals that cannot be written in a
    Basic Latin literal. *)
Definition bullet : code_unit := 8226.   (* U+2022 *)
Definition dquote : code_unit := 34.
Definition newline : code_unit := 10.

Definition is_empty (s : jsstring) : bool :=
  match s with [] => true | _ :: _ => false end.

Fixpoint str_eqb (a b : jsstring) : bool :=
  match a, b with
  | [], [] => true
  | x :: a', y :: b' => (x =? y) && str_eqb a' b'
  | _, _ => false
  end.

(** [s.startsWith(p)] and [s.includes(p)] *)
Fixpoint startsWith (s p : jsstring) {struct p} : bool :=
  match p, s with
  | [], _ => true
  | x :: p', y :: s' => (x =? y) && startsWith s' p'
  | _ :: _, [] => false
  end.

Fixpoint includes (s p : jsstring) : bool :=
  startsWith s p || match s with [] => false | _ :: t => includes t p end.

(** WhiteSpace and LineTerminator code points, the ones [trim] strips. *)
Definition isWhiteSpace (c : code_unit) : bool :=
  ((9 <=? c) && (c <=? 13)) || (c =? 32) || (c =? 160) || (c =? 5760)
  || ((8192 <=? c) && (c <=? 8202)) || (c =? 8232) || (c =? 8233)
  || (c =? 8239) || (c =? 8287) || (c =? 12288) || (c =? 65279).

Fixpoint dropWhile (p : code_unit -> bool) (s : jsstring) : jsstring :=
  match s with
  | [] => []
  | c :: t => if p c then dropWhile p t else s
  end.

Definition trim (s : jsstring) : jsstring :=
  rev (dropWhile isWhiteSpace (rev (dropWhile isWhiteSpace s))).

(** [s.split(sep)] for a one-character separator: never the empty array. *)
Fixpoint split (sep : code_unit) (s : jsstring) : list jsstring :=
  match s with
  | [] => [[]]
  | c :: t =>
      if c =? sep then [] :: split sep t
      else match split sep t with
           | [] => [[c]]
           | h :: r => (c :: h) :: r
           end
  end.

(** [a.join(sep)] *)
Fixpoint join (sep : jsstring) (l : list jsstring) : jsstring :=
  match l with
  | [] => []
  | [x] => x
  | x :: r => x ++ sep ++ join sep r
  end.

(** [s.replace(c, '')] with a string pattern of one character: only the
    first occurrence is replaced. *)
Fixpoint replace_first (c : code_unit) (s : jsstring) : jsstring :=
  match s with
  | [] => []
  | x :: t => if x =? c then t else x :: replace_first c t
  end.

(** The longest prefix whose characters satisfy [p], and what follows it. *)
Fixpoint span (p : code_unit -> bool) (s : jsstring) : jsstring * jsstring :=
  match s with
  | [] => ([], [])
  | c :: t =>
      if p c then let (a, b) := span p t in (c :: a, b) else ([], s)
  end.

(** The same, reading at most [n] characters (a bounded quantifier). *)
Fixpoint span_upto (n : nat) (p : code_unit -> bool) (s : jsstring)
  : jsstring * jsstring :=
  match n, s with
  | S k, c :: t =>
      if p c then let (a, b) := span_upto k p t in (c :: a, b) else ([], s)
  | _, _ => ([], s)
  end.

(** Character classes [[A-Z]] and [\d]. *)
Definition isUpperAZ (c : code_unit) : bool := (65 <=? c) && (c <=? 90).
Definition isLowerAZ (c : code_unit) : bool := (97 <=? c) && (c <=? 122).
Definition isDigit (c : code_unit) : bool := (48 <=? c) && (c <=? 57).

(** Decimal text of a count ([`${n}`] for a small non-negative integer). *)
Definition nat_to_string (n : nat) : jsstring :=
  lit (NilZero.string_of_uint (Nat.to_uint n)).

(** *** Regular-expression matches

    A match records [match[0]] and [match[1]].  [here] decides whether the
    expression matches at the very start of the text and returns the match
    with the text that follows it; [search] finds the leftmost match. *)
Record RegExpMatch := { whole : jsstring; group1 : jsstring }.

Definition matcher := jsstring -> option (RegExpMatch * jsstring).

Fixpoint search (here : matcher) (s : jsstring)
  : option (RegExpMatch * jsstring) :=
  match here s with
  | Some r => Some r
  | None => match s with
            | [] => None
            | _ :: t => search here t
            end
  end.

(** [/\[([^\]]+)\]/] : an opening bracket, one or more characters other than
    the closing bracket (greedy), the closing bracket. *)
Definition bracket_here : matcher := fun s =>
  match s with
  | c :: t =>
      if c =? 91 then
        match span (fun x => negb (x =? 93)) t with
        | (g, d :: rest) =>
            if negb (is_empty g) && (d =? 93)
            then Some ({| whole := c :: g ++ [d]; group1 := g |}, rest)
            else None
        | (_, []) => None
        end
      else None
  | [] => None
  end.

(** [/([A-Z]{1,5})/] : one to five capital letters (greedy). *)
Definition upper_here : matcher := fun s =>
  match span_upto 5 isUpperAZ s with
  | ([], _) => None
  | (g, rest) => Some ({| whole := g; group1 := g |}, rest)
  end.

(** [/^[A-Z]+$/.test(s)] *)
Definition all_upper (s : jsstring) : bool :=
  negb (is_empty s) && forallb isUpperAZ s.

(** *** The host

    [toLowerCase] and [toUpperCase] apply the Unicode case mappings (all
    that is used of them is that capital Basic Latin letters are already
    upper case); numbers received from the backend are IEEE doubles whose
    conversions to text ([`${x}`], [toFixed], [toLocaleString] in a given
    locale) are the host's.  [times100 x] is [x * 100]. *)
Class Host := {
  toLowerCase : jsstring -> jsstring;
  toUpperCase : jsstring -> jsstring;
  toUpperCase_capitals :
    forall s, forallb isUpperAZ s = true -> toUpperCase s = s;
  number : Type;
  locale : Type;
  numberToString : number -> jsstring;
  times100 : number -> number;
  toFixed : number -> nat -> jsstring;
  toLocaleString : locale -> number -> jsstring
}.

End JS.

(* ===================================================================== *)
(** ** [lib/utils.ts] : parseStockSymbols *)
(* ===================================================================== *)

Module Utils.
Import JS.

(** The two entries of [patterns], both with the global flag. *)
Inductive Pattern := BracketList | UpperRun.

Definition patterns : list Pattern := [BracketList; UpperRun].

Definition here (p : Pattern) : matcher :=
  match p with
  | BracketList => bracket_here
  | UpperRun => upper_here
  end.

(** [pattern.exec(input)] of a global expression whose [lastIndex] points at
    [rest]: the leftmost match in [rest] and the text after it, where the
    next call resumes. *)
Definition exec (p : Pattern) (rest : jsstring)
  : option (RegExpMatch * jsstring) :=
  search (here p) rest.

Lemma span_snd_length p s : (length (snd (span p s)) <= length s)%nat.
Proof.
  induction s as [|c t IH]; simpl; [lia|].
  destruct (p c); simpl; [|lia].
  destruct (span p t); simpl in *; lia.
Qed.

Lemma span_upto_lengths n p s :
  (length (fst (span_upto n p s)) + length (snd (span_upto n p s))
   = length s)%nat.
Proof.
  revert s; induction n as [|n IH]; intros [|c t]; simpl; try lia.
  destruct (p c); simpl; [|lia].
  specialize (IH t). destruct (span_upto n p t); simpl in *; lia.
Qed.

Lemma here_consumes p s m r :
  here p s = Some (m, r) -> (length r < length s)%nat.
Proof.
  destruct p; simpl.
  - unfold bracket_here. destruct s as [|c t]; [discriminate|].
    destruct (c =? 91)%N; [|discriminate].
    pose proof (span_snd_length (fun x => negb (x =? 93)%N) t) as L.
    destruct (span _ t) as [g [|d rest]]; [discriminate|].
    destruct (_ && _); [|discriminate].
    intros [= _ <-]. simpl in *. lia.
  - unfold upper_here.
    pose proof (span_upto_lengths 5 isUpperAZ s) as L.
    destruct (span_upto 5 isUpperAZ s) as [[|c g] rest]; [discriminate|].
    intros [= _ <-]. simpl in *. lia.
Qed.

Lemma exec_consumes p s m r :
  exec p s = Some (m, r) -> (length r < length s)%nat.
Proof.
  unfold exec. induction s as [|c t IH]; simpl.
  - destruct (here p []) as [[m' r']|] eqn:E; [|discriminate].
    intros [= -> ->]. apply here_consumes in E. simpl in E. lia.
  - destruct (here p (c :: t)) as [[m' r']|] eqn:E.
    + intros [= -> ->]. now apply here_consumes in E.
    + intros E'. apply IH in E'. lia.
Qed.

Definition inspect {A : Type} (a : A) : {b : A | a = b} :=
  exist _ a eq_refl.

Section WithHost.
Context `{Host}.

(** [Set<string>], iterated in insertion order. *)
Definition SymbolSet := list jsstring.

Definition set_has (symbols : SymbolSet) (x : jsstring) : bool :=
  existsb (str_eqb x) symbols.

Definition set_add (x : jsstring) (symbols : SymbolSet) : SymbolSet :=
  if set_has symbols x then symbols else symbols ++ [x].

(** [symbol.length <= 5 && /^[A-Z]+$/.test(symbol)] *)
Definition is_symbol (symbol : jsstring) : bool :=
  (length symbol <=? 5)%nat && all_upper symbol.

Definition add_if_symbol (symbols : SymbolSet) (symbol : jsstring)
  : SymbolSet :=
  if is_symbol symbol then set_add symbol symbols else symbols.

(** The body of the [while] loop, for one match. *)
Definition collect (m : RegExpMatch) (symbols : SymbolSet) : SymbolSet :=
  if negb (is_empty (group1 m)) then
    (* Extract from brackets *)
    let bracketSymbols :=
      map (fun s => toUpperCase (trim s)) (split 44 (group1 m)) in
    fold_left add_if_symbol bracketSymbols symbols
  else if negb (is_empty (whole m)) then
    (* Direct symbol match *)
    add_if_symbol symbols (toUpperCase (whole m))
  else symbols.

(** [while ((match = pattern.exec(input)) !== null) { ... }] *)
Equations exec_loop (p : Pattern) (rest : jsstring) (symbols : SymbolSet)
  : SymbolSet by wf (length rest) lt :=
  exec_loop p rest symbols with inspect (exec p rest) := {
    | exist _ (Some (m, rest')) _ => exec_loop p rest' (collect m symbols)
    | exist _ None _ => symbols }.
Next Obligation.
  eapply exec_consumes; eauto.
Qed.

Definition parseStockSymbols (input : jsstring) : list jsstring :=
  fold_left (fun symbols p => exec_loop p input symbols) patterns [].

End WithHost.
End Utils.

(* ===================================================================== *)
(** ** [ChatInterface] : extraction, formatting, dispatch, submission *)
(* ===================================================================== *)

Module Chat.
Import JS.

(** The value [parseFloat] denotes: not-a-number, or the decimal it read.
    The program holds the double nearest to that decimal: the two are the
    same number whenever the decimal is a double, as every integer below
    [2^53] is; beyond that the rounding (and the overflow to infinity) is
    the host's and is not modelled. *)
Inductive JSNumber := NaN | Num (q : Q).

Definition digit_value (c : code_unit) : N := (c - 48)%N.

Definition digits_value (ds : jsstring) : N :=
  fold_left (fun acc d => (10 * acc + digit_value d)%N) ds 0%N.

Fixpoint pow10 (n : nat) : positive :=
  match n with
  | O => 1%positive
  | S k => (10 * pow10 k)%positive
  end.

(** The decimal [int.frac], as a reduced fraction. *)
Definition decimal (int frac : jsstring) : Q :=
  Qred (Z.of_N (digits_value (int ++ frac)) # pow10 (length frac)).

(** [parseFloat(s)] for text without leading white space, sign or exponent
    (the amount pattern captures digits, commas and a dot only, see
    [amount_alphabet]): the longest prefix of the form [digits],
    [digits.digits] or [.digits]; not-a-number when there is none. *)
Definition parseFloat (s : jsstring) : JSNumber :=
  let (int, after) := span isDigit s in
  match after with
  | c :: t =>
      if (c =? 46)%N then
        let (frac, _) := span isDigit t in
        if is_empty int && is_empty frac then NaN else Num (decimal int frac)
      else if is_empty int then NaN else Num (decimal int [])
  | [] => if is_empty int then NaN else Num (decimal int [])
  end.

(** [[\d,]] *)
Definition isAmountChar (c : code_unit) : bool := isDigit c || (c =? 44)%N.

(** Characters a captured amount can hold. *)
Definition isAmountText (c : code_unit) : bool :=
  isDigit c || (c =? 44)%N || (c =? 46)%N.

(** [([\d,]+(?:\.\d{2})?)] at the start of the text: the longest run of
    digits and commas, then a dot and two digits when they follow. *)
Definition amount_body (s : jsstring) : option (jsstring * jsstring) :=
  match span isAmountChar s with
  | ([], _) => None
  | (run, after) =>
      match after with
      | dot :: d1 :: d2 :: rest =>
          if (dot =? 46)%N && isDigit d1 && isDigit d2
          then Some (run ++ [dot; d1; d2], rest)
          else Some (run, after)
      | _ => Some (run, after)
      end
  end.

(** [/\$?([\d,]+(?:\.\d{2})?)/] : the dollar sign is tried first and given
    up when the rest does not match after it. *)
Definition amount_here : matcher := fun s =>
  let without_dollar :=
    match amount_body s with
    | Some (g, rest) => Some ({| whole := g; group1 := g |}, rest)
    | None => None
    end in
  match s with
  | c :: t =>
      if (c =? 36)%N then
        match amount_body t with
        | Some (g, rest) => Some ({| whole := c :: g; group1 := g |}, rest)
        | None => without_dollar
        end
      else without_dollar
  | [] => without_dollar
  end.

Definition extractInvestmentAmount (text : jsstring) : JSNumber :=
  match search amount_here text with
  | Some (m, _) => parseFloat (replace_first 44 (group1 m))
  | None => Num 10000
  end.

Definition extractRiskTolerance (text : jsstring) : jsstring :=
  if includes text (lit "conservative") || includes text (lit "safe")
  then lit "conservative"
  else if includes text (lit "aggressive") || includes text (lit "growth")
  then lit "aggressive"
  else lit "balanced".

(** How an awaited promise settles. *)
Inductive Settled (A : Type) :=
| Fulfilled (response : A)
| Rejected.
Arguments Fulfilled {A} response.
Arguments Rejected {A}.

Section WithHost.
Context `{Host}.

Definition extractStockSymbols (text : jsstring) : list jsstring :=
  match search bracket_here text with
  | Some (bracketMatch, _) =>
      map (fun s => toUpperCase (trim s)) (split 44 (group1 bracketMatch))
  | None => []
  end.

(** *** Responses of the backend ([lib/api.ts]) *)

Record PortfolioAllocation := {
  weight : number;
  dollar_amount : number;
  shares : number
}.

(** [allocations] lists the own properties of the record in the order
    [Object.entries] enumerates them. *)
Record Portfolio := {
  allocations : list (jsstring * PortfolioAllocation);
  expected_return : number;
  volatility : number;
  sharpe_ratio : number;
  total_investment : number
}.

Record BacktestResults := {
  total_return : number;
  annual_return : number;
  max_drawdown : number
}.

Record RecommendationResponse := {
  rec_success : bool;
  portfolio : Portfolio;
  backtest : BacktestResults;
  rec_message : option jsstring
}.

(** [clusters] lists the keys of the cluster record. *)
Record ClusterResponse := {
  init_success : bool;
  clusters : list jsstring;
  init_message : option jsstring
}.

Record CustomStockResponse := {
  add_success : bool;
  add_message : jsstring;
  added : option (list jsstring);
  failed : option (list jsstring);
  total_custom_stocks : number
}.

Record StockListResponse := {
  list_success : bool;
  custom_stocks : list jsstring;
  list_total_custom_stocks : number;
  total_available_stocks : number
}.

(** [`${x}`] for an optional string. *)
Definition optional_text (x : option jsstring) : jsstring :=
  match x with
  | Some s => s
  | None => lit "undefined"
  end.

(** *** formatPortfolioResponse *)

Definition nl : jsstring := [newline].

Definition percent2 (x : number) : jsstring :=
  toFixed (times100 x) 2 ++ lit "%".

Definition allocation_line (entry : jsstring * PortfolioAllocation)
  : jsstring :=
  let (stock, allocation) := entry in
  bullet :: lit " " ++ stock ++ lit ": "
    ++ toFixed (times100 (weight allocation)) 1 ++ lit "% ("
    ++ numberToString (shares allocation) ++ lit " shares)".

Definition disclaimer : jsstring :=
  lit "Please consult with a financial advisor before making investment decisions.".

Definition summary_head : jsstring :=
  lit "Here's your personalized portfolio recommendation:" ++ nl ++ nl
  ++ lit "**Portfolio Summary:**" ++ nl
  ++ bullet :: lit " Total Investment: $".

Definition summary_tail (result : RecommendationResponse) : jsstring :=
  let p := portfolio result in
  nl
  ++ bullet :: lit " Expected Annual Return: " ++ percent2 (expected_return p) ++ nl
  ++ bullet :: lit " Portfolio Volatility: " ++ percent2 (volatility p) ++ nl
  ++ bullet :: lit " Sharpe Ratio: " ++ toFixed (sharpe_ratio p) 2 ++ nl ++ nl
  ++ lit "**Top Allocations:**" ++ nl.

Definition top_allocations (result : RecommendationResponse) : jsstring :=
  join nl (map allocation_line
             (firstn 5 (allocations (portfolio result)))).

Definition performance (result : RecommendationResponse) : jsstring :=
  let b := backtest result in
  nl ++ nl
  ++ lit "**Historical Performance:**" ++ nl
  ++ bullet :: lit " Total Return: " ++ percent2 (total_return b) ++ nl
  ++ bullet :: lit " Annual Return: " ++ percent2 (annual_return b) ++ nl
  ++ bullet :: lit " Max Drawdown: " ++ percent2 (max_drawdown b) ++ nl ++ nl.

(** [viewer] is the locale [toLocaleString()] resolves to when it is called
    without a locale argument: the default locale of the viewer's browser. *)
Definition formatPortfolioResponse (viewer : locale)
  (result : RecommendationResponse) : jsstring :=
  summary_head
  ++ toLocaleString viewer (total_investment (portfolio result))
  ++ summary_tail result
  ++ top_allocations result
  ++ performance result
  ++ disclaimer.

(** *** processMessage

    [apiService]: the operation a run calls is awaited once; its promise is
    [Fulfilled] with a response or [Rejected]. *)

Record ApiService := {
  initializeSystem : Settled ClusterResponse;
  addCustomStocks : list jsstring -> Settled CustomStockResponse;
  getRecommendations : jsstring -> JSNumber -> Settled RecommendationResponse;
  listCustomStocks : Settled StockListResponse
}.

(** What a run of [processMessage] does besides computing its reply: the
    backend operations it calls and the result it publishes through
    [onPortfolioUpdate]. *)
Inductive Effect :=
| CallInitializeSystem
| CallAddCustomStocks (stocks : list jsstring)
| CallGetRecommendations (riskTolerance : jsstring) (investmentAmount : JSNumber)
| CallListCustomStocks
| PortfolioUpdate (result : RecommendationResponse).

(** The operation behind a call was rejected (threw). *)
Definition rejects (api : ApiService) (e : Effect) : bool :=
  match e with
  | CallInitializeSystem =>
      match initializeSystem api with Rejected => true | _ => false end
  | CallAddCustomStocks stocks =>
      match addCustomStocks api stocks with Rejected => true | _ => false end
  | CallGetRecommendations riskTolerance amount =>
      match getRecommendations api riskTolerance amount with
      | Rejected => true
      | _ => false
      end
  | CallListCustomStocks =>
      match listCustomStocks api with Rejected => true | _ => false end
  | PortfolioUpdate _ => false
  end.

(** The returned promise resolves with the reply or rejects with
    [new Error(message)]. *)
Inductive Outcome :=
| Return (response : jsstring)
| Throw (message : jsstring).

Record Run := { effects : list Effect; outcome : Outcome }.

Definition quoted (s : jsstring) : jsstring := dquote :: s ++ [dquote].

Definition defaultResponse (message : jsstring) : jsstring :=
  lit "I understand you want help with: " ++ quoted message
  ++ lit ". I can assist you with:" ++ nl ++ nl
  ++ bullet :: lit " Adding custom stocks: "
  ++ quoted (lit "Add the following stocks: [AAPL, MSFT, GOOGL]") ++ nl
  ++ bullet :: lit " Getting recommendations: "
  ++ quoted (lit "I want conservative recommendations for $10,000") ++ nl
  ++ bullet :: lit " Analyzing clusters: "
  ++ quoted (lit "Show me the market clusters") ++ nl
  ++ bullet :: lit " Managing stocks: "
  ++ quoted (lit "List my custom stocks") ++ nl ++ nl
  ++ lit "What specific action would you like me to help you with?".

(** The conditions of the four [if] statements, on the lower-cased text. *)
Definition asksInitialize (lowerMessage : jsstring) : bool :=
  includes lowerMessage (lit "initialize") || includes lowerMessage (lit "start").

Definition asksAddStocks (lowerMessage : jsstring) : bool :=
  includes lowerMessage (lit "add")
  && (includes lowerMessage (lit "stock") || includes lowerMessage (lit "[")).

Definition asksRecommendations (lowerMessage : jsstring) : bool :=
  includes lowerMessage (lit "recommend")
  || includes lowerMessage (lit "portfolio")
  || includes lowerMessage (lit "invest").

Definition asksListStocks (lowerMessage : jsstring) : bool :=
  includes lowerMessage (lit "list") && includes lowerMessage (lit "stock").

(** None of the four conditions of [processMessage] holds. *)
Definition unrecognized (lowerMessage : jsstring) : bool :=
  negb (asksInitialize lowerMessage)
  && negb (asksAddStocks lowerMessage)
  && negb (asksRecommendations lowerMessage)
  && negb (asksListStocks lowerMessage).

Definition length_or_0 (x : option (list jsstring)) : nat :=
  match x with
  | Some l => length l
  | None => 0
  end.

(** A list that is present and not empty. *)
Definition present (x : option (list jsstring)) : option (list jsstring) :=
  match x with
  | Some ((_ :: _) as l) => Some l
  | _ => None
  end.

Definition addedResponse (result : CustomStockResponse) : jsstring :=
  lit "Successfully added " ++ nat_to_string (length_or_0 (added result))
  ++ lit " custom stocks to your portfolio."
  ++ match present (added result) with
     | Some l => lit " Added: " ++ join (lit ", ") l ++ lit "."
     | None => []
     end
  ++ match present (failed result) with
     | Some l => lit " Failed: " ++ join (lit ", ") l ++ lit "."
     | None => []
     end
  ++ lit " Total custom stocks: "
  ++ numberToString (total_custom_stocks result) ++ lit ".".

Definition initializeBranch (api : ApiService) : Run :=
  {| effects := [CallInitializeSystem];
     outcome :=
       match initializeSystem api with
       | Fulfilled result =>
           if init_success result then
             Return (lit "System initialized successfully! I've analyzed "
                     ++ nat_to_string (length (clusters result))
                     ++ lit " stock clusters. You can now get personalized recommendations or add custom stocks to your portfolio.")
           else
             Return (lit "Initialization failed: "
                     ++ optional_text (init_message result))
       | Rejected => Throw (lit "Failed to initialize the system")
       end |}.

Definition addStocksBranch (api : ApiService) (stockSymbols : list jsstring)
  : Run :=
  {| effects := [CallAddCustomStocks stockSymbols];
     outcome :=
       match addCustomStocks api stockSymbols with
       | Fulfilled result =>
           if add_success result then Return (addedResponse result)
           else Return (lit "Failed to add stocks: " ++ add_message result)
       | Rejected => Throw (lit "Failed to add custom stocks")
       end |}.

Definition recommendationsBranch (api : ApiService) (viewer : locale)
  (message lowerMessage : jsstring) : Run :=
  let riskTolerance := extractRiskTolerance lowerMessage in
  let investmentAmount := extractInvestmentAmount message in
  let call := CallGetRecommendations riskTolerance investmentAmount in
  match getRecommendations api riskTolerance investmentAmount with
  | Fulfilled result =>
      if rec_success result then
        {| effects := [call; PortfolioUpdate result];
           outcome := Return (formatPortfolioResponse viewer result) |}
      else
        {| effects := [call];
           outcome := Return (lit "Failed to get recommendations: "
                              ++ optional_text (rec_message result)) |}
  | Rejected =>
      {| effects := [call];
         outcome := Throw (lit "Failed to get recommendations") |}
  end.

Definition listStocksBranch (api : ApiService) : Run :=
  {| effects := [CallListCustomStocks];
     outcome :=
       match listCustomStocks api with
       | Fulfilled result =>
           if list_success result then
             if (0 <? length (custom_stocks result))%nat then
               Return (lit "Your custom stocks: "
                       ++ join (lit ", ") (custom_stocks result)
                       ++ lit ". Total: "
                       ++ numberToString (list_total_custom_stocks result)
                       ++ lit " custom stocks out of "
                       ++ numberToString (total_available_stocks result)
                       ++ lit " available.")
             else
               Return (lit "No custom stocks added yet. You can add stocks using: "
                       ++ quoted (lit "Add the following stocks: [SYMBOL1, SYMBOL2, ...]"))
           else Return (lit "Failed to get custom stocks list")
       | Rejected => Throw (lit "Failed to get custom stocks list")
       end |}.

(** The statements after the [Add custom stocks] block: they run when its
    condition is false and also when it found no symbol. *)
Definition afterAddStocks (api : ApiService) (viewer : locale)
  (message lowerMessage : jsstring) : Run :=
  if asksRecommendations lowerMessage then
    recommendationsBranch api viewer message lowerMessage
  else if asksListStocks lowerMessage then
    listStocksBranch api
  else
    {| effects := []; outcome := Return (defaultResponse message) |}.

Definition processMessage (api : ApiService) (viewer : locale)
  (message : jsstring) : Run :=
  let lowerMessage := toLowerCase message in
  if asksInitialize lowerMessage then initializeBranch api
  else if asksAddStocks lowerMessage then
    let stockSymbols := extractStockSymbols message in
    if (0 <? length stockSymbols)%nat then addStocksBranch api stockSymbols
    else afterAddStocks api viewer message lowerMessage
  else afterAddStocks api viewer message lowerMessage.

(** *** handleSubmit *)

Inductive Role := user | agent.

Record Message := {
  msg_id : jsstring;
  msg_type : Role;
  content : jsstring;
  timestamp : N
}.

Record ChatState := {
  messages : list Message;
  inputValue : jsstring;
  isLoading : bool;
  error : option jsstring
}.

(** What [generateId()] and [new Date()] return for the two messages. *)
Record Stamps := {
  user_id : jsstring;
  user_time : N;
  agent_id : jsstring;
  agent_time : N
}.

Definition apology : jsstring :=
  lit "I apologize, but I encountered an error. Please try again or check if the API is running.".

(** The state once the handler has finished, with the effects of the run. *)
Definition handleSubmit (api : ApiService) (viewer : locale) (env : Stamps)
  (st : ChatState) : ChatState * list Effect :=
  if is_empty (trim (inputValue st)) || isLoading st then (st, [])
  else
    let userMessage :=
      {| msg_id := user_id env; msg_type := user;
         content := trim (inputValue st); timestamp := user_time env |} in
    let run := processMessage api viewer (content userMessage) in
    match outcome run with
    | Return response =>
        let agentMessage :=
          {| msg_id := agent_id env; msg_type := agent;
             content := response; timestamp := agent_time env |} in
        ({| messages := (messages st ++ [userMessage]) ++ [agentMessage];
            inputValue := []; isLoading := false; error := None |},
         effects run)
    | Throw err_message =>
        let errorMessage :=
          {| msg_id := agent_id env; msg_type := agent;
             content := apology; timestamp := agent_time env |} in
        ({| messages := (messages st ++ [userMessage]) ++ [errorMessage];
            inputValue := []; isLoading := false;
            error := Some err_message |},
         effects run)
    end.

End WithHost.
End Chat.

(* ===================================================================== *)
(** ** The reference algorithm for symbol extraction

    Written after the specification, to be compared with the two
    extractors of the code: scan for a bracketed list first; if one is
    found, split its contents on commas, trim, uppercase, keep the tokens
    matching [^[A-Z]{1,5}$], without duplicates, in insertion order; if no
    bracket is present, scan the bare tokens of one to five capital letters
    in the text, under the same filter. *)
(* ===================================================================== *)

Module Reference.
Import JS Utils.

(** Every match of a pattern in the text, from left to right, each search
    resuming where the previous match ended. *)
Equations all_matches (p : Pattern) (rest : jsstring)
  : list RegExpMatch by wf (length rest) lt :=
  all_matches p rest with inspect (exec p rest) := {
    | exist _ (Some (m, rest')) _ => m :: all_matches p rest'
    | exist _ None _ => [] }.
Next Obligation.
  eapply exec_consumes; eauto.
Qed.

(** Keeps the first occurrence of every element. *)
Fixpoint dedup (l : list jsstring) : list jsstring :=
  match l with
  | [] => []
  | x :: r => x :: filter (fun y => negb (str_eqb y x)) (dedup r)
  end.

Section WithHost.
Context `{Host}.

(** Split on commas, trim, uppercase. *)
Definition list_tokens (contents : jsstring) : list jsstring :=
  map (fun s => toUpperCase (trim s)) (split 44 contents).

(** The bare tokens of one to five capital letters. *)
Definition bare_tokens (text : jsstring) : list jsstring :=
  map whole (all_matches UpperRun text).

Definition extract (text : jsstring) : list jsstring :=
  match search bracket_here text with
  | Some (m, _) => dedup (filter is_symbol (list_tokens (group1 m)))
  | None => dedup (filter is_symbol (bare_tokens text))
  end.

End WithHost.
End Reference.

(* ===================================================================== *)
(** ** A concrete host: Basic Latin text, integer numbers, two locales *)
(* ===================================================================== *)

Module BasicLatin.
Import JS.

(** The case mappings restricted to Basic Latin: on text made of Basic Latin
    characters they are the ECMAScript ones. *)
Definition upper (c : code_unit) : code_unit :=
  if isLowerAZ c then (c - 32)%N else c.

Definition lower (c : code_unit) : code_unit :=
  if isUpperAZ c then (c + 32)%N else c.

Inductive Locale := en_US | de_DE.

(** The grouping separator of the locale's decimal format. *)
Definition separator (l : Locale) : code_unit :=
  match l with
  | en_US => 44%N
  | de_DE => 46%N
  end.

Definition digits (n : N) : jsstring :=
  lit (NilZero.string_of_uint (N.to_uint n)).

Definition signed (z : Z) (magnitude : jsstring) : jsstring :=
  if (z <? 0)%Z then lit "-" ++ magnitude else magnitude.

(** Groups of three digits, from the least significant one; [ds] is the
    digit string reversed. *)
Fixpoint group3 (sep : code_unit) (ds : jsstring) : jsstring :=
  match ds with
  | a :: b :: c :: ((_ :: _) as more) => a :: b :: c :: sep :: group3 sep more
  | _ => ds
  end.

Definition integerToString (z : Z) : jsstring :=
  signed z (digits (Z.abs_N z)).

Definition integerToFixed (z : Z) (fractionDigits : nat) : jsstring :=
  integerToString z
  ++ match fractionDigits with
     | O => []
     | S _ => lit "." ++ repeat 48%N fractionDigits
     end.

Definition integerToLocaleString (l : Locale) (z : Z) : jsstring :=
  signed z (rev (group3 (separator l) (rev (digits (Z.abs_N z))))).

Lemma upper_capitals s : forallb isUpperAZ s = true -> map upper s = s.
Proof.
  induction s as [|c t IH]; simpl; [reflexivity|].
  intros E. apply andb_true_iff in E as [Ec Et].
  rewrite (IH Et). f_equal. unfold upper, isLowerAZ.
  unfold isUpperAZ in Ec. apply andb_true_iff in Ec as [_ Ec].
  apply N.leb_le in Ec.
  destruct (97 <=? c)%N eqn:E97; [|reflexivity].
  apply N.leb_le in E97. lia.
Qed.

(** Numbers are the integers (exactly representable doubles of moderate
    size), for which the conversions are plain decimal notation. *)
Definition host : Host :=
  {| toLowerCase := map lower;
     toUpperCase := map upper;
     toUpperCase_capitals := upper_capitals;
     number := Z;
     locale := Locale;
     numberToString := integerToString;
     times100 := fun z => (z * 100)%Z;
     toFixed := integerToFixed;
     toLocaleString := integerToLocaleString |}.

End BasicLatin.

(* ===================================================================== *)
(** ** Scenarios: backends and states to run the dispatcher on *)
(* ===================================================================== *)

Import JS Chat.

Module Scenario.

#[local] Existing Instance BasicLatin.host.

(** No operation succeeds: every promise is rejected. *)
Definition offline : ApiService :=
  {| initializeSystem := Rejected;
     addCustomStocks := fun _ => Rejected;
     getRecommendations := fun _ _ => Rejected;
     listCustomStocks := Rejected |}.

Definition flat_portfolio (total : Z) : Portfolio :=
  {| allocations := [];
     expected_return := 0%Z;
     volatility := 0%Z;
     sharpe_ratio := 0%Z;
     total_investment := total |}.

Definition flat_backtest : BacktestResults :=
  {| total_return := 0%Z; annual_return := 0%Z; max_drawdown := 0%Z |}.

(** The backend answers [{success: false, message: "rate limited"}] to a
    recommendation request. *)
Definition rate_limited_response : RecommendationResponse :=
  {| rec_success := false;
     portfolio := flat_portfolio 0;
     backtest := flat_backtest;
     rec_message := Some (lit "rate limited") |}.

Definition rate_limited : ApiService :=
  {| initializeSystem := Rejected;
     addCustomStocks := fun _ => Rejected;
     getRecommendations := fun _ _ => Fulfilled rate_limited_response;
     listCustomStocks := Rejected |}.

(** A successful recommendation for ten thousand dollars. *)
Definition ten_thousand : RecommendationResponse :=
  {| rec_success := true;
     portfolio := flat_portfolio 10000;
     backtest := flat_backtest;
     rec_message := None |}.

Definition stamps : Stamps :=
  {| user_id := lit "u1"; user_time := 1%N;
     agent_id := lit "a1"; agent_time := 2%N |}.

(** The user has typed a greeting, padded with blanks. *)
Definition typing : ChatState :=
  {| messages := [];
     inputValue := lit "  hello there ";
     isLoading := false;
     error := None |}.

End Scenario.

(* ===================================================================== *)
(** ** Properties *)
(* ===================================================================== *)

(** *** Risk tolerance *)

Lemma risk_categories_distinct :
  lit "conservative" <> lit "aggressive"
  /\ lit "conservative" <> lit "balanced"
  /\ lit "aggressive" <> lit "balanced".
Proof. repeat split; discriminate. Qed.

(** C8. Risk-tolerance extraction is a total function into the three
    categories: text containing "conservative" or "safe" maps to
    conservative; otherwise text containing "aggressive" or "growth" maps to
    aggressive; any other text maps to the default balanced.  The dispatcher
    applies it to the lower-cased message, which makes the check
    case-insensitive. *)
Theorem extractRiskTolerance_total (text : jsstring) :
  let r := extractRiskTolerance text in
  let conservative_word :=
    includes text (lit "conservative") || includes text (lit "safe") in
  let aggressive_word :=
    includes text (lit "aggressive") || includes text (lit "growth") in
  (conservative_word = true -> r = lit "conservative")
  /\ (conservative_word = false -> aggressive_word = true ->
      r = lit "aggressive")
  /\ (conservative_word = false -> aggressive_word = false ->
      r = lit "balanced")
  /\ ((r = lit "conservative" /\ r <> lit "aggressive" /\ r <> lit "balanced")
      \/ (r = lit "aggressive" /\ r <> lit "conservative"
          /\ r <> lit "balanced")
      \/ (r = lit "balanced" /\ r <> lit "conservative"
          /\ r <> lit "aggressive")).
Proof.
  cbv zeta. unfold extractRiskTolerance.
  destruct (includes text (lit "conservative") || includes text (lit "safe"));
    [|destruct (includes text (lit "aggressive")
                || includes text (lit "growth"))].
  all: repeat split; try congruence; try discriminate.
  - left. repeat split; discriminate.
  - right; left. repeat split; discriminate.
  - right; right. repeat split; discriminate.
Qed.

(** C10. The conservative trigger words are checked before the aggressive
    ones: a text containing trigger words of both categories is
    conservative, never aggressive. *)
Theorem conservative_checked_first (text : jsstring) :
  includes text (lit "conservative") || includes text (lit "safe") = true ->
  includes text (lit "aggressive") || includes text (lit "growth") = true ->
  extractRiskTolerance text = lit "conservative"
  /\ extractRiskTolerance text <> lit "aggressive".
Proof.
  intros Hc _. unfold extractRiskTolerance. rewrite Hc.
  split; [reflexivity | discriminate].
Qed.

(** "safe growth" holds a trigger word of each category. *)
Lemma conservative_checked_first_witness :
  extractRiskTolerance (lit "safe growth") = lit "conservative"
  /\ extractRiskTolerance (lit "safe growth") <> lit "aggressive".
Proof.
  apply (conservative_checked_first (lit "safe growth")); reflexivity.
Defined.

(** *** Dispatch *)

Section Dispatch.
Context `{Host}.
Variables (api : ApiService) (viewer : locale).

(** Which statement of [processMessage] a message reaches. *)
Lemma processMessage_route (message : jsstring) :
  let lowerMessage := toLowerCase message in
  processMessage api viewer message =
    if asksInitialize lowerMessage then initializeBranch api
    else if asksAddStocks lowerMessage
            && (0 <? length (extractStockSymbols message))%nat
    then addStocksBranch api (extractStockSymbols message)
    else afterAddStocks api viewer message lowerMessage.
Proof.
  cbv zeta. unfold processMessage.
  destruct (asksInitialize _); [reflexivity|].
  destruct (asksAddStocks _); [|reflexivity].
  destruct (extractStockSymbols message); reflexivity.
Qed.

(** A bracketed list always yields at least one token (possibly an empty
    one): the extraction is empty exactly when no bracketed list is found. *)
Lemma split_nonempty sep s : split sep s <> [].
Proof.
  induction s as [|c t IH]; simpl; [discriminate|].
  destruct (c =? sep)%N; [discriminate|].
  destruct (split sep t); discriminate.
Qed.

Lemma extractStockSymbols_empty_iff (text : jsstring) :
  extractStockSymbols text = [] <-> search bracket_here text = None.
Proof.
  unfold extractStockSymbols.
  destruct (search bracket_here text) as [[m rest]|]; split; try congruence.
  intros E. apply map_eq_nil in E. now apply split_nonempty in E.
Qed.

(** A recommendation request is only issued by the recommendation branch,
    with the extracted parameters. *)
Lemma recommendation_call message riskTolerance amount :
  In (CallGetRecommendations riskTolerance amount)
     (effects (processMessage api viewer message)) ->
  processMessage api viewer message
  = recommendationsBranch api viewer message (toLowerCase message)
  /\ riskTolerance = extractRiskTolerance (toLowerCase message)
  /\ amount = extractInvestmentAmount message.
Proof.
  rewrite processMessage_route. cbv zeta.
  destruct (asksInitialize _).
  { simpl. intros [E|[]]. discriminate. }
  destruct (asksAddStocks _ && _).
  { simpl. intros [E|[]]. discriminate. }
  unfold afterAddStocks.
  destruct (asksRecommendations _).
  - unfold recommendationsBranch.
    destruct (getRecommendations _ _ _) as [result|];
      [destruct (rec_success result)|]; simpl.
    + intros [E|[E|[]]]; [|discriminate]. injection E as <- <-. auto.
    + intros [E|[]]. injection E as <- <-. auto.
    + intros [E|[]]. injection E as <- <-. auto.
  - destruct (asksListStocks _); simpl.
    + intros [E|[]]. discriminate.
    + intros [].
Qed.

(** C7. Whenever the dispatcher requests recommendations and the backend
    answers [success: false] with a message, the reply is exactly
    "Failed to get recommendations: " followed by that message. *)
Theorem recommendation_failure_reply
  (message riskTolerance : jsstring) (amount : JSNumber)
  (result : RecommendationResponse) (reason : jsstring) :
  In (CallGetRecommendations riskTolerance amount)
     (effects (processMessage api viewer message)) ->
  getRecommendations api riskTolerance amount = Fulfilled result ->
  rec_success result = false ->
  rec_message result = Some reason ->
  outcome (processMessage api viewer message)
  = Return (lit "Failed to get recommendations: " ++ reason).
Proof.
  intros Hcall Hget Hfail Hmsg.
  apply recommendation_call in Hcall as (-> & -> & ->).
  unfold recommendationsBranch. rewrite Hget, Hfail. simpl.
  now rewrite Hmsg.
Qed.

(** The run of a message that reaches the statements after the
    [Add custom stocks] block. *)
Lemma afterAddStocks_run (message lowerMessage : jsstring) :
  let run := afterAddStocks api viewer message lowerMessage in
  (forall stocks, ~ In (CallAddCustomStocks stocks) (effects run))
  /\ (asksRecommendations lowerMessage = true ->
      exists published,
        effects run
        = CallGetRecommendations (extractRiskTolerance lowerMessage)
            (extractInvestmentAmount message) :: published)
  /\ (asksRecommendations lowerMessage = false ->
      asksListStocks lowerMessage = true ->
      effects run = [CallListCustomStocks])
  /\ (asksRecommendations lowerMessage = false ->
      asksListStocks lowerMessage = false ->
      effects run = [] /\ outcome run = Return (defaultResponse message)).
Proof.
  cbv zeta. unfold afterAddStocks, recommendationsBranch.
  destruct (asksRecommendations _); [|destruct (asksListStocks _)].
  - destruct (getRecommendations _ _ _) as [result|];
      [destruct (rec_success result)|]; simpl.
    all: repeat split; try discriminate; eauto.
    all: intros stocks Hin; simpl in Hin;
      repeat (destruct Hin as [Hin|Hin]; [discriminate|]); exact Hin.
  - simpl. repeat split; try discriminate.
    intros stocks [E|[]]. discriminate.
  - simpl. repeat split; try discriminate. intros stocks [].
Qed.

Lemma symbolless_add_runs_afterAddStocks (message : jsstring) :
  asksInitialize (toLowerCase message) = false ->
  extractStockSymbols message = [] ->
  processMessage api viewer message
  = afterAddStocks api viewer message (toLowerCase message).
Proof.
  intros Hinit Hnone. rewrite processMessage_route. cbv zeta.
  rewrite Hinit, Hnone. simpl. now rewrite andb_false_r.
Qed.

(** C2 (as the code has it). A message that satisfies the AddStocks
    condition but carries no symbol never reaches [addCustomStocks]; it
    falls through to the statements that follow: a recommendation request
    when it also mentions "recommend", "portfolio" or "invest", the stock
    list when it mentions "list" (and "stock"), and the help reply, with no
    backend call at all, only when neither applies. *)
Theorem add_without_symbols_falls_through (message : jsstring) :
  let lowerMessage := toLowerCase message in
  let run := processMessage api viewer message in
  asksInitialize lowerMessage = false ->
  asksAddStocks lowerMessage = true ->
  extractStockSymbols message = [] ->
  (forall stocks, ~ In (CallAddCustomStocks stocks) (effects run))
  /\ (asksRecommendations lowerMessage = true ->
      exists published,
        effects run
        = CallGetRecommendations (extractRiskTolerance lowerMessage)
            (extractInvestmentAmount message) :: published)
  /\ (asksRecommendations lowerMessage = false ->
      asksListStocks lowerMessage = true ->
      effects run = [CallListCustomStocks])
  /\ (asksRecommendations lowerMessage = false ->
      asksListStocks lowerMessage = false ->
      effects run = [] /\ outcome run = Return (defaultResponse message)).
Proof.
  cbv zeta. intros Hinit _ Hnone.
  rewrite (symbolless_add_runs_afterAddStocks message Hinit Hnone).
  apply afterAddStocks_run.
Qed.

(** C3 (as the code has it). For a message whose lower-cased text contains
    "add" and "stock" together with "recommend" or "portfolio" (and neither
    "initialize" nor "start"), the AddStocks rule, checked first, wins
    whenever the message carries a bracketed list: the only operation called
    is [addCustomStocks] with the extracted symbols.  Without a bracketed
    list the dispatcher goes on to request recommendations. *)
Theorem add_rule_checked_first (message : jsstring) :
  let lowerMessage := toLowerCase message in
  let run := processMessage api viewer message in
  asksInitialize lowerMessage = false ->
  includes lowerMessage (lit "add") = true ->
  includes lowerMessage (lit "stock") = true ->
  includes lowerMessage (lit "recommend")
  || includes lowerMessage (lit "portfolio") = true ->
  (search bracket_here message <> None ->
   effects run = [CallAddCustomStocks (extractStockSymbols message)])
  /\ (search bracket_here message = None ->
      exists published,
        effects run
        = CallGetRecommendations (extractRiskTolerance lowerMessage)
            (extractInvestmentAmount message) :: published).
Proof.
  cbv zeta. intros Hinit Hadd Hstock Hrec.
  assert (Hrule : asksAddStocks (toLowerCase message) = true)
    by (unfold asksAddStocks; now rewrite Hadd, Hstock).
  assert (Hasks : asksRecommendations (toLowerCase message) = true).
  { unfold asksRecommendations.
    destruct (includes _ (lit "recommend")), (includes _ (lit "portfolio"));
      simpl in *; congruence. }
  split.
  - intros Hlist. rewrite processMessage_route. cbv zeta.
    rewrite Hinit, Hrule.
    destruct (extractStockSymbols message) eqn:E; [|reflexivity].
    now apply extractStockSymbols_empty_iff in E.
  - intros Hnone. apply extractStockSymbols_empty_iff in Hnone.
    rewrite (symbolless_add_runs_afterAddStocks message Hinit Hnone).
    now apply afterAddStocks_run.
Qed.

End Dispatch.

(** The rate-limited backend of the specification's third scenario. *)
Lemma recommendation_failure_reply_witness :
  outcome (processMessage (H := BasicLatin.host) Scenario.rate_limited
             BasicLatin.en_US (lit "recommend a portfolio"))
  = Return (lit "Failed to get recommendations: rate limited").
Proof.
  apply (@recommendation_failure_reply BasicLatin.host Scenario.rate_limited
           BasicLatin.en_US (lit "recommend a portfolio")
           (lit "balanced") (Num 10000) Scenario.rate_limited_response
           (lit "rate limited")).
  - left. reflexivity.
  - reflexivity.
  - reflexivity.
  - reflexivity.
Defined.

(** "please add some stock" names no symbol and matches no later rule. *)
Lemma add_without_symbols_falls_through_witness :
  let run := processMessage (H := BasicLatin.host) Scenario.offline
               BasicLatin.en_US (lit "please add some stock") in
  effects run = []
  /\ outcome run = Return (defaultResponse (lit "please add some stock")).
Proof.
  destruct (@add_without_symbols_falls_through BasicLatin.host
              Scenario.offline BasicLatin.en_US (lit "please add some stock")
              eq_refl eq_refl eq_refl)
    as (_ & _ & _ & Hhelp).
  apply Hhelp; reflexivity.
Defined.

(** C2, as stated, fails: "add my stocks and invest" satisfies the AddStocks
    condition and carries no symbol, yet the dispatcher calls
    [getRecommendations] and the reply is not the help text. *)
Lemma symbolless_add_calls_backend :
  asksAddStocks
    (toLowerCase (Host := BasicLatin.host) (lit "add my stocks and invest"))
  = true
  /\ extractStockSymbols (H := BasicLatin.host)
       (lit "add my stocks and invest") = []
  /\ effects (processMessage (H := BasicLatin.host) Scenario.offline
                BasicLatin.en_US (lit "add my stocks and invest"))
     = [CallGetRecommendations (lit "balanced") (Num 10000)]
  /\ outcome (processMessage (H := BasicLatin.host) Scenario.offline
                BasicLatin.en_US (lit "add my stocks and invest"))
     <> Return (defaultResponse (lit "add my stocks and invest")).
Proof. repeat split; try reflexivity. discriminate. Qed.

(** With a bracketed list the stocks are added, "portfolio" or not. *)
Lemma add_rule_checked_first_witness :
  effects (processMessage (H := BasicLatin.host) Scenario.offline
             BasicLatin.en_US (lit "add stock [AAPL] to my portfolio"))
  = [CallAddCustomStocks [lit "AAPL"]].
Proof.
  destruct (@add_rule_checked_first BasicLatin.host Scenario.offline
              BasicLatin.en_US (lit "add stock [AAPL] to my portfolio")
              eq_refl eq_refl eq_refl eq_refl)
    as [Hadd _].
  apply Hadd. discriminate.
Defined.

(** C3, as stated, fails: "add a stock to my portfolio" contains "add",
    "stock" and "portfolio" (and neither "initialize" nor "start"), yet the
    operation called is [getRecommendations], not [addCustomStocks]. *)
Lemma add_rule_loses_without_symbols :
  asksInitialize
    (toLowerCase (Host := BasicLatin.host) (lit "add a stock to my portfolio"))
  = false
  /\ includes (toLowerCase (Host := BasicLatin.host)
                 (lit "add a stock to my portfolio")) (lit "add") = true
  /\ includes (toLowerCase (Host := BasicLatin.host)
                 (lit "add a stock to my portfolio")) (lit "stock") = true
  /\ includes (toLowerCase (Host := BasicLatin.host)
                 (lit "add a stock to my portfolio")) (lit "portfolio") = true
  /\ effects (processMessage (H := BasicLatin.host) Scenario.offline
                BasicLatin.en_US (lit "add a stock to my portfolio"))
     = [CallGetRecommendations (lit "balanced") (Num 10000)].
Proof. repeat split; reflexivity. Qed.

(** *** Submission *)

Lemma startsWith_app (p rest : jsstring) : startsWith (p ++ rest) p = true.
Proof.
  induction p as [|c p IH]; simpl; [reflexivity|].
  now rewrite N.eqb_refl, IH.
Qed.

Lemma includes_app (pre s p : jsstring) :
  includes s p = true -> includes (pre ++ s) p = true.
Proof.
  intros E. induction pre as [|c pre IH]; simpl; [exact E|].
  rewrite IH. apply orb_true_r.
Qed.

Lemma includes_infix (pre p post : jsstring) :
  includes (pre ++ p ++ post) p = true.
Proof.
  apply includes_app. destruct (p ++ post) eqn:E; simpl.
  - destruct p; [reflexivity | discriminate].
  - rewrite <- E, startsWith_app. reflexivity.
Qed.

(** The help reply quotes the message. *)
Lemma defaultResponse_includes (message : jsstring) :
  includes (defaultResponse message) message = true.
Proof.
  unfold defaultResponse, quoted.
  change (dquote :: message ++ [dquote]) with ([dquote] ++ message ++ [dquote]).
  rewrite <- !app_assoc.
  rewrite (app_assoc (lit "I understand you want help with: ") [dquote]).
  apply includes_infix.
Qed.

Section Submission.
Context `{Host}.
Variables (api : ApiService) (viewer : locale).

(** [processMessage] throws exactly when the operation it called was
    rejected; otherwise it returns a reply. *)
Lemma processMessage_outcome (message : jsstring) :
  let run := processMessage api viewer message in
  if existsb (rejects api) (effects run)
  then exists diagnostic, outcome run = Throw diagnostic
  else exists response, outcome run = Return response.
Proof.
  cbv zeta. rewrite processMessage_route. cbv zeta.
  destruct (asksInitialize _).
  { unfold initializeBranch. simpl.
    destruct (initializeSystem api) as [result|]; simpl; eauto.
    destruct (init_success result); eauto. }
  destruct (asksAddStocks _ && _).
  { unfold addStocksBranch. simpl.
    destruct (addCustomStocks api _) as [result|]; simpl; eauto.
    destruct (add_success result); eauto. }
  unfold afterAddStocks.
  destruct (asksRecommendations _).
  { unfold recommendationsBranch.
    destruct (getRecommendations api _ _) as [result|] eqn:E;
      [destruct (rec_success result)|]; simpl; rewrite E; simpl; eauto. }
  destruct (asksListStocks _).
  { unfold listStocksBranch. simpl.
    destruct (listCustomStocks api) as [result|]; simpl; eauto.
    destruct (list_success result); eauto.
    destruct (0 <? _)%nat; eauto. }
  simpl. eauto.
Qed.

Lemma unrecognized_run (message : jsstring) :
  unrecognized (toLowerCase message) = true ->
  effects (processMessage api viewer message) = [].
Proof.
  unfold unrecognized. intros E.
  repeat (apply andb_true_iff in E as [E ?]).
  rewrite processMessage_route. cbv zeta. unfold afterAddStocks.
  destruct (asksInitialize _); [discriminate|].
  destruct (asksAddStocks _); [discriminate|].
  destruct (asksRecommendations _); [discriminate|].
  destruct (asksListStocks _); [discriminate|].
  reflexivity.
Qed.

(** A run without effects is the help reply. *)
Lemma silent_run (message : jsstring) :
  effects (processMessage api viewer message) = [] ->
  outcome (processMessage api viewer message)
  = Return (defaultResponse message).
Proof.
  rewrite processMessage_route. cbv zeta. unfold afterAddStocks.
  destruct (asksInitialize _); [discriminate|].
  destruct (asksAddStocks _ && _); [discriminate|].
  destruct (asksRecommendations _).
  { unfold recommendationsBranch.
    destruct (getRecommendations api _ _) as [result|];
      [destruct (rec_success result)|]; discriminate. }
  destruct (asksListStocks _); [discriminate|].
  reflexivity.
Qed.

(** C6. Every accepted submission (non-blank input, no request in flight)
    appends the user's message and then exactly one agent message.  When the
    operation called is rejected, that message is the fixed apology and the
    error is also recorded for the diagnostic banner; otherwise it is the
    reply of [processMessage].  For an unrecognized message no operation is
    called and the reply is the help text, which quotes the submitted
    text. *)
Theorem handleSubmit_always_replies (env : Stamps) (st : ChatState) :
  let text := trim (inputValue st) in
  let run := processMessage api viewer text in
  let st' := fst (handleSubmit api viewer env st) in
  let userMessage :=
    {| msg_id := user_id env; msg_type := user;
       content := text; timestamp := user_time env |} in
  is_empty text = false ->
  isLoading st = false ->
  exists reply,
    messages st' = messages st ++ [userMessage; reply]
    /\ msg_type reply = agent
    /\ isLoading st' = false
    /\ (existsb (rejects api) (effects run) = true ->
        content reply = apology
        /\ exists diagnostic, error st' = Some diagnostic)
    /\ (existsb (rejects api) (effects run) = false ->
        outcome run = Return (content reply) /\ error st' = None)
    /\ (unrecognized (toLowerCase text) = true -> effects run = [])
    /\ (effects run = [] ->
        content reply = defaultResponse text
        /\ includes (content reply) text = true).
Proof.
  cbv zeta. intros Hinput Hidle.
  unfold handleSubmit. rewrite Hinput, Hidle. cbn [orb content].
  pose proof (processMessage_outcome (trim (inputValue st))) as Hout.
  pose proof (silent_run (trim (inputValue st))) as Hsilent.
  pose proof (unrecognized_run (trim (inputValue st))) as Hunknown.
  cbv zeta in Hout.
  destruct (outcome (processMessage api viewer (trim (inputValue st))))
    as [response|diagnostic] eqn:E; cbn [fst messages isLoading error].
  - eexists. rewrite <- app_assoc. split; [reflexivity|].
    cbn [msg_type content].
    split; [reflexivity|]. split; [reflexivity|].
    split; [|split; [|split; [exact Hunknown|]]].
    + intros R. rewrite R in Hout. destruct Hout as [d Hd]. discriminate.
    + intros _. split; reflexivity.
    + intros S. specialize (Hsilent S). injection Hsilent as ->.
      split; [reflexivity | apply defaultResponse_includes].
  - eexists. rewrite <- app_assoc. split; [reflexivity|].
    cbn [msg_type content].
    split; [reflexivity|]. split; [reflexivity|].
    split; [|split; [|split; [exact Hunknown|]]].
    + intros _. split; [reflexivity | eauto].
    + intros R. rewrite R in Hout. destruct Hout as [d Hd]. discriminate.
    + intros S. specialize (Hsilent S). discriminate.
Qed.

End Submission.

(** A blank input, or a submission while a request is in flight, is not
    accepted: nothing is appended and nothing is called. *)
Lemma handleSubmit_not_accepted `{Host} (api : ApiService) (viewer : locale)
  (env : Stamps) (st : ChatState) :
  is_empty (trim (inputValue st)) || isLoading st = true ->
  handleSubmit api viewer env st = (st, []).
Proof. intros E. unfold handleSubmit. now rewrite E. Qed.

(** A greeting is not recognized; the reply quotes it, trimmed. *)
Lemma handleSubmit_always_replies_witness :
  exists reply,
    messages (fst (handleSubmit (H := BasicLatin.host) Scenario.offline
                     BasicLatin.en_US Scenario.stamps Scenario.typing))
    = [ {| msg_id := lit "u1"; msg_type := user;
           content := lit "hello there"; timestamp := 1%N |}; reply ]
    /\ msg_type reply = agent
    /\ includes (content reply) (lit "hello there") = true.
Proof.
  destruct (@handleSubmit_always_replies BasicLatin.host Scenario.offline
              BasicLatin.en_US Scenario.stamps Scenario.typing
              eq_refl eq_refl)
    as (reply & Hmessages & Hagent & _ & _ & _ & Hunknown & Hecho).
  exists reply. split; [exact Hmessages|]. split; [exact Hagent|].
  apply Hecho, Hunknown. reflexivity.
Defined.

(** *** Reply formatting *)

Lemma ends_with_disclaimer `{Host} (viewer : locale)
  (result : RecommendationResponse) :
  exists before, formatPortfolioResponse viewer result = before ++ disclaimer.
Proof.
  unfold formatPortfolioResponse.
  exists (summary_head
          ++ toLocaleString viewer (total_investment (portfolio result))
          ++ summary_tail result ++ top_allocations result
          ++ performance result).
  now rewrite <- !app_assoc.
Qed.

(** The viewer's locale enters the reply through the total investment
    only. *)
Lemma formatPortfolioResponse_locale_only `{Host} (viewer viewer' : locale)
  (result : RecommendationResponse) :
  formatPortfolioResponse viewer result
  = formatPortfolioResponse viewer' result
  <-> toLocaleString viewer (total_investment (portfolio result))
      = toLocaleString viewer' (total_investment (portfolio result)).
Proof.
  unfold formatPortfolioResponse. split.
  - intros E. apply app_inv_head in E. now apply app_inv_tail in E.
  - now intros ->.
Qed.

(** The layout of the reply: the first five allocations at most, taken
    from the front of [Object.entries], one line each, the disclaimer at the
    end; the viewer's locale enters through the total investment only. *)
Lemma formatPortfolioResponse_shape `{Host} (viewer : locale)
  (result : RecommendationResponse) :
  let entries := allocations (portfolio result) in
  let shown := firstn 5 entries in
  let total := total_investment (portfolio result) in
  length shown = Nat.min 5 (length entries)
  /\ (exists hidden, entries = shown ++ hidden)
  /\ formatPortfolioResponse viewer result
     = summary_head ++ toLocaleString viewer total ++ summary_tail result
       ++ join nl (map allocation_line shown)
       ++ performance result ++ disclaimer
  /\ (forall stock allocation,
        allocation_line (stock, allocation)
        = bullet :: lit " " ++ stock ++ lit ": "
          ++ toFixed (times100 (weight allocation)) 1 ++ lit "% ("
          ++ numberToString (shares allocation) ++ lit " shares)")
  /\ (exists before,
        formatPortfolioResponse viewer result = before ++ disclaimer)
  /\ (forall viewer' : locale,
        formatPortfolioResponse viewer result
        = formatPortfolioResponse viewer' result
        <-> toLocaleString viewer total = toLocaleString viewer' total).
Proof.
  cbv zeta. split; [apply length_firstn|].
  split; [exists (skipn 5 (allocations (portfolio result)));
          symmetry; apply firstn_skipn|].
  split; [reflexivity|]. split; [reflexivity|].
  split; [apply ends_with_disclaimer|].
  intros viewer'. apply formatPortfolioResponse_locale_only.
Qed.

(** C9. The code at the failing input: the total investment is formatted
    with [toLocaleString()] and no locale, so the same ten-thousand-dollar
    recommendation reads "$10,000" for a viewer whose locale is en-US and
    "$10.000" for one whose locale is de-DE; the reply is not the same for
    every viewer, as locale-fixed formatting would make it. *)
Lemma reply_depends_on_viewer_locale :
  toLocaleString (Host := BasicLatin.host) BasicLatin.en_US 10000%Z
  = lit "10,000"
  /\ toLocaleString (Host := BasicLatin.host) BasicLatin.de_DE 10000%Z
     = lit "10.000"
  /\ formatPortfolioResponse (H := BasicLatin.host) BasicLatin.en_US
       Scenario.ten_thousand
     <> formatPortfolioResponse (H := BasicLatin.host) BasicLatin.de_DE
          Scenario.ten_thousand.
Proof.
  split; [reflexivity|]. split; [reflexivity|].
  intros E. apply formatPortfolioResponse_locale_only in E.
  discriminate E.
Qed.

(** *** Investment amount *)

Lemma span_fst_forallb p s : forallb p (fst (span p s)) = true.
Proof.
  induction s as [|c t IH]; simpl; [reflexivity|].
  destruct (p c) eqn:E; [|reflexivity].
  destruct (span p t); simpl in *. now rewrite E.
Qed.

Lemma forallb_weaken (p q : code_unit -> bool) s :
  (forall c, p c = true -> q c = true) ->
  forallb p s = true -> forallb q s = true.
Proof.
  intros W. induction s as [|c t IH]; simpl; [reflexivity|].
  intros E. apply andb_true_iff in E as [Ec Et].
  now rewrite (W c Ec), IH.
Qed.

Lemma amount_body_alphabet s g rest :
  amount_body s = Some (g, rest) -> forallb isAmountText g = true.
Proof.
  unfold amount_body.
  pose proof (span_fst_forallb isAmountChar s) as R.
  destruct (span isAmountChar s) as [run after]. simpl in R.
  assert (Rt : forallb isAmountText run = true).
  { revert R. apply forallb_weaken. intros c. unfold isAmountText, isAmountChar.
    intros ->. reflexivity. }
  destruct run as [|r0 run]; [discriminate|].
  destruct after as [|dot [|d1 [|d2 more]]]; try (intros [= <- _]; exact Rt).
  destruct ((dot =? 46)%N && isDigit d1 && isDigit d2) eqn:E;
    intros [= <- _]; [|exact Rt].
  apply andb_true_iff in E as [E E2]. apply andb_true_iff in E as [E0 E1].
  simpl in Rt |- *. apply andb_true_iff in Rt as [R0 R1].
  rewrite R0, forallb_app, R1. simpl. unfold isAmountText.
  rewrite E0, E1, E2. now rewrite !orb_true_r.
Qed.

Lemma amount_here_alphabet s m rest :
  amount_here s = Some (m, rest) -> forallb isAmountText (group1 m) = true.
Proof.
  unfold amount_here.
  destruct (amount_body s) as [[g r]|] eqn:Es.
  - apply amount_body_alphabet in Es.
    destruct s as [|c t]; [now intros [= <- _]|].
    destruct (c =? 36)%N; [|now intros [= <- _]].
    destruct (amount_body t) as [[g' r']|] eqn:Et; [|now intros [= <- _]].
    apply amount_body_alphabet in Et. now intros [= <- _].
  - destruct s as [|c t]; [discriminate|].
    destruct (c =? 36)%N; [|discriminate].
    destruct (amount_body t) as [[g' r']|] eqn:Et; [|discriminate].
    apply amount_body_alphabet in Et. now intros [= <- _].
Qed.

Lemma search_found (here : matcher) s m rest :
  search here s = Some (m, rest) ->
  exists suffix, here suffix = Some (m, rest).
Proof.
  induction s as [|c t IH]; simpl.
  - destruct (here []) eqn:E; [|discriminate]. intros [= ->]. eauto.
  - destruct (here (c :: t)) eqn:E; [intros [= ->]; eauto | exact IH].
Qed.

Lemma replace_first_forallb p c s :
  forallb p s = true -> forallb p (replace_first c s) = true.
Proof.
  induction s as [|x t IH]; simpl; [reflexivity|].
  intros E. apply andb_true_iff in E as [Ex Et].
  destruct (x =? c)%N; [exact Et|]. simpl. now rewrite Ex, IH.
Qed.

(** [amount_alphabet]: the text handed to [parseFloat] holds digits, commas
    and dots only: no white space, sign or exponent. *)
Lemma amount_alphabet (text : jsstring) m rest :
  search amount_here text = Some (m, rest) ->
  forallb isAmountText (replace_first 44 (group1 m)) = true.
Proof.
  intros E. apply search_found in E as [suffix E].
  apply replace_first_forallb. now apply amount_here_alphabet in E.
Qed.

(** A text without any digit or comma has no match: the default applies. *)
Lemma amount_default (text : jsstring) :
  forallb (fun c => negb (isAmountChar c)) text = true ->
  extractInvestmentAmount text = Num 10000.
Proof.
  intros E. unfold extractInvestmentAmount.
  assert (Hnone : search amount_here text = None); [|now rewrite Hnone].
  induction text as [|c t IH]; [reflexivity|].
  simpl in E. apply andb_true_iff in E as [Ec Et].
  apply negb_true_iff in Ec.
  assert (Hc : amount_body (c :: t) = None)
    by (unfold amount_body; simpl; now rewrite Ec).
  cbn [search]. unfold amount_here at 1. rewrite Hc.
  destruct (c =? 36)%N; [|now apply IH].
  assert (Ht : amount_body t = None).
  { destruct t as [|d t']; [reflexivity|].
    simpl in Et. apply andb_true_iff in Et as [Ed _].
    apply negb_true_iff in Ed. unfold amount_body. simpl. now rewrite Ed. }
  rewrite Ht. now apply IH.
Qed.

(** The amounts of the specification's examples. *)
Lemma amount_examples :
  extractInvestmentAmount (lit "$10,000.50") = Num (Qred 10000.5)
  /\ extractInvestmentAmount
       (lit "I want conservative recommendations for $5,000") = Num 5000
  /\ extractInvestmentAmount (lit "no amount here") = Num 10000.
Proof. repeat split; reflexivity. Qed.

(** C5. The code at the failing inputs: only the first comma is removed
    before parsing, so "$1,000,000" is read as one thousand; and a comma
    alone is a match, so currency text without digits such as "$," is not
    given the default but not-a-number. *)
Theorem extractInvestmentAmount_comma_slips :
  extractInvestmentAmount (lit "$1,000,000") = Num 1000
  /\ replace_first 44 (lit "1,000,000") = lit "1000,000"
  /\ extractInvestmentAmount (lit "$,") = NaN.
Proof. repeat split; reflexivity. Qed.

(** *** Symbol extraction *)

Import Utils.

Lemma str_eqb_eq (a b : jsstring) : str_eqb a b = true <-> a = b.
Proof.
  revert b; induction a as [|x a IH]; intros [|y b]; simpl;
    try (split; [discriminate | discriminate]); [tauto|].
  rewrite andb_true_iff, N.eqb_eq, IH. split.
  - now intros [-> ->].
  - now intros [= -> ->].
Qed.

Lemma str_eqb_refl (a : jsstring) : str_eqb a a = true.
Proof. now apply str_eqb_eq. Qed.

Lemma str_eqb_sym (a b : jsstring) : str_eqb a b = str_eqb b a.
Proof.
  destruct (str_eqb a b) eqn:E, (str_eqb b a) eqn:E'; try reflexivity.
  - apply str_eqb_eq in E. subst. now rewrite str_eqb_refl in E'.
  - apply str_eqb_eq in E'. subst. now rewrite str_eqb_refl in E.
Qed.

Section Loops.
Context `{Host}.

Lemma exec_loop_unfold (p : Pattern) (rest : jsstring) (symbols : SymbolSet) :
  exec_loop p rest symbols
  = match exec p rest with
    | Some (m, rest') => exec_loop p rest' (collect m symbols)
    | None => symbols
    end.
Proof.
  funelim (exec_loop p rest symbols).
  - now rewrite e.
  - now rewrite e.
Qed.

Lemma all_matches_unfold (p : Pattern) (rest : jsstring) :
  Reference.all_matches p rest
  = match exec p rest with
    | Some (m, rest') => m :: Reference.all_matches p rest'
    | None => []
    end.
Proof.
  funelim (Reference.all_matches p rest).
  - now rewrite e.
  - now rewrite e.
Qed.

(** The loop visits the matches of the pattern from left to right. *)
Lemma exec_loop_fold (p : Pattern) (rest : jsstring) :
  forall symbols,
    exec_loop p rest symbols
    = fold_left (fun acc m => collect m acc)
        (Reference.all_matches p rest) symbols.
Proof.
  induction rest as [rest IH] using (induction_ltof1 _ (@length code_unit)).
  intros symbols.
  rewrite exec_loop_unfold, all_matches_unfold.
  destruct (exec p rest) as [[m rest']|] eqn:E; [|reflexivity].
  simpl. apply IH. unfold ltof. now apply exec_consumes in E.
Qed.


(** Shapes of the matches. *)
Lemma span_upto_fst n p s :
  forallb p (fst (span_upto n p s)) = true
  /\ (length (fst (span_upto n p s)) <= n)%nat.
Proof.
  revert s; induction n as [|n IH]; intros [|c t]; simpl; try (split; [reflexivity | lia]).
  destruct (p c) eqn:E; [|split; [reflexivity | simpl; lia]].
  specialize (IH t). destruct (span_upto n p t); simpl in *.
  rewrite E. destruct IH. split; [assumption | lia].
Qed.

Lemma upper_here_shape s m rest :
  upper_here s = Some (m, rest) ->
  whole m = group1 m
  /\ is_symbol (group1 m) = true.
Proof.
  unfold upper_here.
  pose proof (span_upto_fst 5 isUpperAZ s) as [U L].
  destruct (span_upto 5 isUpperAZ s) as [[|c g] r]; [discriminate|].
  intros [= <- _]. simpl in *. split; [reflexivity|].
  unfold is_symbol, all_upper. simpl.
  apply andb_true_iff. split; [|exact U].
  apply Nat.leb_le. lia.
Qed.

Lemma here_group1_nonempty p s m rest :
  here p s = Some (m, rest) -> is_empty (group1 m) = false.
Proof.
  destruct p; simpl.
  - unfold bracket_here. destruct s as [|c t]; [discriminate|].
    destruct (c =? 91)%N; [|discriminate].
    destruct (span _ t) as [g [|d r]]; [discriminate|].
    destruct (negb (is_empty g)) eqn:E; [|discriminate].
    destruct (d =? 93)%N; [|discriminate].
    intros [= <- _]. simpl. now apply negb_true_iff in E.
  - unfold upper_here.
    destruct (span_upto 5 isUpperAZ s) as [[|c g] r]; [discriminate|].
    now intros [= <- _].
Qed.

Lemma all_matches_here p rest m :
  In m (Reference.all_matches p rest) ->
  exists s r, here p s = Some (m, r).
Proof.
  induction rest as [rest IH] using (induction_ltof1 _ (@length code_unit)).
  rewrite all_matches_unfold.
  destruct (exec p rest) as [[m' rest']|] eqn:E; [|intros []].
  intros [->|Hin].
  - apply search_found in E as [s E]. eauto.
  - apply (IH rest'); [|exact Hin]. unfold ltof. now apply exec_consumes in E.
Qed.

(** For a match of either pattern the first branch of the loop body runs:
    the branch for a direct match is never reached. *)
Lemma collect_tokens (m : RegExpMatch) (symbols : SymbolSet) :
  is_empty (group1 m) = false ->
  collect m symbols
  = fold_left add_if_symbol (Reference.list_tokens (group1 m)) symbols.
Proof. intros E. unfold collect. now rewrite E. Qed.

(** A run of capital letters is its own single token. *)
Lemma split_without_separator sep s :
  forallb (fun c => negb (c =? sep)%N) s = true -> split sep s = [s].
Proof.
  induction s as [|c t IH]; simpl; [reflexivity|].
  intros E. apply andb_true_iff in E as [Ec Et].
  apply negb_true_iff in Ec. rewrite Ec, (IH Et). reflexivity.
Qed.

Lemma dropWhile_capitals s :
  forallb isUpperAZ s = true -> dropWhile isWhiteSpace s = s.
Proof.
  destruct s as [|c t]; simpl; [reflexivity|].
  intros E. apply andb_true_iff in E as [Ec _].
  replace (isWhiteSpace c) with false; [reflexivity|].
  unfold isUpperAZ in Ec. apply andb_true_iff in Ec as [Lo Hi].
  apply N.leb_le in Lo, Hi. unfold isWhiteSpace.
  repeat match goal with
         | |- context [(?a <=? ?b)%N] => destruct (N.leb_spec a b)
         | |- context [(?a =? ?b)%N] => destruct (N.eqb_spec a b)
         end; simpl; try reflexivity; lia.
Qed.

Lemma forallb_rev (p : code_unit -> bool) s :
  forallb p s = true -> forallb p (rev s) = true.
Proof.
  rewrite !forallb_forall. intros E x Hx. apply E. now apply in_rev.
Qed.

Lemma trim_capitals s : forallb isUpperAZ s = true -> trim s = s.
Proof.
  intros E. unfold trim.
  rewrite (dropWhile_capitals s E).
  rewrite (dropWhile_capitals (rev s) (forallb_rev _ _ E)).
  apply rev_involutive.
Qed.

Lemma capitals_single_token g :
  forallb isUpperAZ g = true -> Reference.list_tokens g = [g].
Proof.
  intros E. unfold Reference.list_tokens.
  rewrite split_without_separator.
  - simpl. now rewrite (trim_capitals g E), (toUpperCase_capitals g E).
  - revert E. apply forallb_weaken. intros c Ec.
    unfold isUpperAZ in Ec. apply andb_true_iff in Ec as [Lo Hi].
    apply N.leb_le in Lo. apply negb_true_iff, N.eqb_neq. lia.
Qed.


(** The set, filled in insertion order, against [dedup]. *)
Lemma filter_filter_and {A} (P Q : A -> bool) l :
  filter P (filter Q l) = filter (fun y => Q y && P y) l.
Proof.
  induction l as [|y l IH]; simpl; [reflexivity|].
  destruct (Q y); simpl; [|exact IH]. destruct (P y); now rewrite IH.
Qed.

Lemma filter_all {A} (P : A -> bool) l :
  (forall x, P x = true) -> filter P l = l.
Proof.
  intros E. induction l as [|y l IH]; simpl; [reflexivity|].
  now rewrite E, IH.
Qed.

Lemma set_has_snoc acc x y :
  set_has (acc ++ [x]) y = set_has acc y || str_eqb y x.
Proof.
  unfold set_has. rewrite existsb_app. simpl. now rewrite orb_false_r.
Qed.

Lemma fold_set_add_dedup (l : list jsstring) :
  forall acc,
    fold_left (fun a x => set_add x a) l acc
    = acc ++ filter (fun x => negb (set_has acc x)) (Reference.dedup l).
Proof.
  induction l as [|x r IH]; intros acc; simpl; [now rewrite app_nil_r|].
  rewrite IH. unfold set_add. rewrite filter_filter_and.
  destruct (set_has acc x) eqn:E; simpl.
  - f_equal. apply filter_ext. intros y.
    destruct (str_eqb y x) eqn:Eyx; [|reflexivity].
    apply str_eqb_eq in Eyx. subst y. now rewrite E.
  - rewrite <- app_assoc. simpl. do 2 f_equal.
    apply filter_ext. intros y. rewrite set_has_snoc.
    now destruct (set_has acc y), (str_eqb y x).
Qed.

Lemma add_if_symbol_filter (l : list jsstring) :
  forall acc,
    fold_left add_if_symbol l acc
    = fold_left (fun a x => set_add x a) (filter is_symbol l) acc.
Proof.
  induction l as [|x r IH]; intros acc; simpl; [reflexivity|].
  unfold add_if_symbol at 2. destruct (is_symbol x); simpl; apply IH.
Qed.

Lemma collected_symbols (l : list jsstring) :
  fold_left add_if_symbol l [] = Reference.dedup (filter is_symbol l).
Proof.
  rewrite add_if_symbol_filter, fold_set_add_dedup.
  now rewrite filter_all by reflexivity.
Qed.

Lemma fold_collect (ms : list RegExpMatch) :
  (forall m, In m ms -> is_empty (group1 m) = false) ->
  forall acc,
    fold_left (fun acc m => collect m acc) ms acc
    = fold_left add_if_symbol
        (concat (map (fun m => Reference.list_tokens (group1 m)) ms)) acc.
Proof.
  induction ms as [|m ms IH]; intros Hne acc; simpl; [reflexivity|].
  rewrite fold_left_app, collect_tokens by (apply Hne; now left).
  apply IH. intros m' Hm'. apply Hne. now right.
Qed.

Lemma upper_matches_tokens (text : jsstring) :
  concat (map (fun m => Reference.list_tokens (group1 m))
            (Reference.all_matches UpperRun text))
  = Reference.bare_tokens text.
Proof.
  unfold Reference.bare_tokens.
  pose proof (all_matches_here UpperRun text) as Hshape.
  induction (Reference.all_matches UpperRun text) as [|m ms IH];
    simpl; [reflexivity|].
  destruct (Hshape m (or_introl eq_refl)) as (s & r & Hm).
  apply upper_here_shape in Hm as [Hw Hs].
  unfold is_symbol, all_upper in Hs.
  apply andb_true_iff in Hs as [_ Hs]. apply andb_true_iff in Hs as [_ Hs].
  rewrite (capitals_single_token _ Hs), Hw. simpl. f_equal.
  apply IH. intros m' Hm'. apply Hshape. now right.
Qed.

(** What [parseStockSymbols] returns: the symbols, without duplicates and
    in insertion order, among the tokens of every bracketed list followed by
    the bare tokens of the whole text. *)
Lemma parseStockSymbols_spec (input : jsstring) :
  parseStockSymbols input
  = Reference.dedup
      (filter is_symbol
         (concat (map (fun m => Reference.list_tokens (group1 m))
                    (Reference.all_matches BracketList input))
          ++ Reference.bare_tokens input)).
Proof.
  unfold parseStockSymbols, patterns. simpl.
  rewrite !exec_loop_fold.
  rewrite !fold_collect.
  - rewrite upper_matches_tokens, <- fold_left_app. apply collected_symbols.
  - intros m Hm. apply all_matches_here in Hm as (s & r & Hm).
    now apply here_group1_nonempty in Hm.
  - intros m Hm. apply all_matches_here in Hm as (s & r & Hm).
    now apply here_group1_nonempty in Hm.
Qed.


Lemma is_symbol_shape (s : jsstring) :
  is_symbol s = true
  <-> (1 <= length s <= 5)%nat /\ forallb isUpperAZ s = true.
Proof.
  unfold is_symbol, all_upper.
  rewrite !andb_true_iff, Nat.leb_le, negb_true_iff.
  destruct s as [|c t]; simpl.
  - split; [intros (_ & E & _); discriminate | lia].
  - split; [intros (L & _ & U) | intros (L & U)];
      repeat split; try assumption; lia.
Qed.

Lemma dedup_subset (l : list jsstring) x :
  In x (Reference.dedup l) -> In x l.
Proof.
  revert x; induction l as [|y r IH]; simpl; intros x; [tauto|].
  intros [->|Hx]; [now left|]. right. apply IH.
  now apply filter_In in Hx as [Hx _].
Qed.

Lemma filter_NoDup (P : jsstring -> bool) l : NoDup l -> NoDup (filter P l).
Proof.
  induction 1 as [|y l Hy Hl IH]; simpl; [constructor|].
  destruct (P y); [|exact IH]. constructor; [|exact IH].
  intros Hin. apply Hy. now apply filter_In in Hin as [Hin _].
Qed.

Lemma dedup_NoDup (l : list jsstring) : NoDup (Reference.dedup l).
Proof.
  induction l as [|y r IH]; simpl; constructor.
  - intros Hin. apply filter_In in Hin as [_ Hneq].
    now rewrite str_eqb_refl in Hneq.
  - now apply filter_NoDup.
Qed.

Lemma dedup_of_NoDup (l : list jsstring) : NoDup l -> Reference.dedup l = l.
Proof.
  induction 1 as [|y l Hy Hl IH]; simpl; [reflexivity|].
  rewrite IH. f_equal.
  rewrite <- (filter_ext_in (fun _ => true)); [now apply filter_all|].
  intros x Hx. symmetry. apply negb_true_iff.
  destruct (str_eqb x y) eqn:E; [|reflexivity].
  apply str_eqb_eq in E. now subst.
Qed.

Lemma filter_all_symbols (l : list jsstring) :
  forallb is_symbol l = true -> filter is_symbol l = l.
Proof.
  induction l as [|y r IH]; simpl; [reflexivity|].
  intros E. apply andb_true_iff in E as [Ey Er]. now rewrite Ey, IH.
Qed.

Lemma no_bracket_no_match (input : jsstring) :
  search bracket_here input = None ->
  Reference.all_matches BracketList input = [].
Proof.
  intros E. rewrite all_matches_unfold. unfold exec. simpl. now rewrite E.
Qed.

(** Every symbol [parseStockSymbols] returns is one to five capital letters,
    and none is returned twice. *)
Lemma parseStockSymbols_shape (input : jsstring) :
  NoDup (parseStockSymbols input)
  /\ forall symbol,
       In symbol (parseStockSymbols input) ->
       (1 <= length symbol <= 5)%nat /\ forallb isUpperAZ symbol = true.
Proof.
  rewrite parseStockSymbols_spec. split; [apply dedup_NoDup|].
  intros symbol Hin. apply dedup_subset, filter_In in Hin as [_ Hs].
  now apply is_symbol_shape.
Qed.

End Loops.

(** C1 (as the code has it).  The dispatcher's [extractStockSymbols] scans
    for the first bracketed list: without one it returns the empty list (it
    has no bare-token fallback); with one it returns the contents split on
    commas, trimmed and uppercased, which is the reference result whenever
    those tokens are distinct symbols.  The shared [parseStockSymbols] keeps
    the tokens matching [^[A-Z]{1,5}$], without duplicates and in insertion
    order, among the tokens of every bracketed list followed by the bare
    tokens of the whole text (the bare scan always runs); on a text without
    a bracketed list it is the reference algorithm, and from
    "[AAPL, AAPL, msft]" it yields exactly AAPL, MSFT. *)
Theorem symbol_extraction_against_reference `{Host} :
  (forall text,
     search bracket_here text = None -> extractStockSymbols text = [])
  /\ (forall text m rest,
        search bracket_here text = Some (m, rest) ->
        extractStockSymbols text = Reference.list_tokens (group1 m)
        /\ (forallb is_symbol (Reference.list_tokens (group1 m)) = true ->
            NoDup (Reference.list_tokens (group1 m)) ->
            extractStockSymbols text = Reference.extract text))
  /\ (forall input,
        parseStockSymbols input
        = Reference.dedup
            (filter is_symbol
               (concat (map (fun m => Reference.list_tokens (group1 m))
                          (Reference.all_matches BracketList input))
                ++ Reference.bare_tokens input)))
  /\ (forall input,
        search bracket_here input = None ->
        parseStockSymbols input = Reference.extract input)
  /\ parseStockSymbols (H := BasicLatin.host) (lit "[AAPL, AAPL, msft]")
     = [lit "AAPL"; lit "MSFT"].
Proof.
  split; [intros text; apply extractStockSymbols_empty_iff|].
  split.
  { intros text m rest E. unfold extractStockSymbols, Reference.extract.
    rewrite E. split; [reflexivity|]. intros Hsym Hdistinct.
    rewrite filter_all_symbols by exact Hsym.
    now rewrite dedup_of_NoDup. }
  split; [apply parseStockSymbols_spec|].
  split; [|reflexivity].
  intros input E. rewrite parseStockSymbols_spec.
  rewrite (no_bracket_no_match input E). simpl.
  unfold Reference.extract. now rewrite E.
Qed.

(** C1, as stated, fails on both extractors.  The dispatcher's has no
    fallback: "buy AAPL and MSFT" yields nothing where the reference
    algorithm yields AAPL, MSFT.  The helper's bare scan is not a fallback:
    from "Add [msft] NOW" it also collects A and NOW where the reference
    algorithm yields MSFT alone. *)
Lemma extraction_departs_from_reference :
  extractStockSymbols (H := BasicLatin.host) (lit "buy AAPL and MSFT") = []
  /\ Reference.extract (H := BasicLatin.host) (lit "buy AAPL and MSFT")
     = [lit "AAPL"; lit "MSFT"]
  /\ parseStockSymbols (H := BasicLatin.host) (lit "Add [msft] NOW")
     = [lit "MSFT"; lit "A"; lit "NOW"]
  /\ Reference.extract (H := BasicLatin.host) (lit "Add [msft] NOW")
     = [lit "MSFT"].
Proof. repeat split; reflexivity. Qed.

(** The dispatcher's extractor keeps duplicates. *)
Lemma extractStockSymbols_keeps_duplicates :
  extractStockSymbols (H := BasicLatin.host) (lit "[AAPL, AAPL, msft]")
  = [lit "AAPL"; lit "AAPL"; lit "MSFT"].
Proof. reflexivity. Qed.

(** C4. The code at the failing input: the dispatcher's extractor returns
    the tokens of the bracketed list as they are, among them "A1" and
    "TOOLONGSYM", which are not symbols, and they are sent to
    [addCustomStocks]; [parseStockSymbols] filters them out
    ([parseStockSymbols_shape]). *)
Theorem extractStockSymbols_unfiltered :
  extractStockSymbols (H := BasicLatin.host) (lit "[a1, TOOLONGSYM, bb]")
  = [lit "A1"; lit "TOOLONGSYM"; lit "BB"]
  /\ effects (processMessage (H := BasicLatin.host) Scenario.offline
                BasicLatin.en_US (lit "add stocks [a1, TOOLONGSYM, bb]"))
     = [CallAddCustomStocks [lit "A1"; lit "TOOLONGSYM"; lit "BB"]]
  /\ is_symbol (lit "A1") = false
  /\ is_symbol (lit "TOOLONGSYM") = false
  /\ parseStockSymbols (H := BasicLatin.host) (lit "[a1, TOOLONGSYM, bb]")
     = [lit "BB"; lit "TOOLO"; lit "NGSYM"].
Proof. repeat split; reflexivity. Qed.

(** *** The end-to-end scenarios of the specification *)

Example scenario_conservative_5000 :
  effects (processMessage (H := BasicLatin.host) Scenario.offline
             BasicLatin.en_US
             (lit "I want conservative recommendations for $5,000"))
  = [CallGetRecommendations (lit "conservative") (Num 5000)].
Proof. reflexivity. Qed.

Example scenario_add_three_stocks :
  effects (processMessage (H := BasicLatin.host) Scenario.offline
             BasicLatin.en_US
             (lit "Add the following stocks: [PLTR, MKL, RBLX]"))
  = [CallAddCustomStocks [lit "PLTR"; lit "MKL"; lit "RBLX"]].
Proof. reflexivity. Qed.

(* ===================================================================== *)
(** ** Further properties of the extractors *)
(* ===================================================================== *)

Section SymbolLists.
Context `{Host}.

(** The match object of a bare token. *)
Definition token_match (g : jsstring) : RegExpMatch :=
  {| whole := g; group1 := g |}.

(** The text goes on with something that is not a capital letter. *)
Definition ends_token (rest : jsstring) : bool :=
  match rest with
  | [] => true
  | c :: _ => negb (isUpperAZ c)
  end.

Lemma span_upto_token n g rest :
  (length g <= n)%nat -> forallb isUpperAZ g = true -> ends_token rest = true ->
  span_upto n isUpperAZ (g ++ rest) = (g, rest).
Proof.
  revert n; induction g as [|c g IH]; intros n L U E; simpl in *.
  - destruct n, rest as [|d rest]; simpl in *; try reflexivity.
    apply negb_true_iff in E. now rewrite E.
  - destruct n as [|n]; [lia|]. apply andb_true_iff in U as [Uc Ug].
    simpl. rewrite Uc, (IH n); auto. lia.
Qed.

Lemma is_symbol_capitals g :
  is_symbol g = true ->
  (length g <= 5)%nat /\ forallb isUpperAZ g = true /\ g <> [].
Proof.
  intros S. apply is_symbol_shape in S as [[L1 L5] U].
  repeat split; auto. intros ->. simpl in L1. lia.
Qed.

Lemma search_here (here : matcher) s r :
  here s = Some r -> search here s = Some r.
Proof. intros E. destruct s; cbn [search]; now rewrite E. Qed.

Lemma exec_token g rest :
  is_symbol g = true -> ends_token rest = true ->
  exec UpperRun (g ++ rest) = Some (token_match g, rest).
Proof.
  intros S E. apply is_symbol_capitals in S as (L & U & N).
  unfold exec. simpl here.
  assert (Hhere : upper_here (g ++ rest) = Some (token_match g, rest)).
  { unfold upper_here. rewrite span_upto_token by assumption.
    destruct g; [contradiction | reflexivity]. }
  now apply search_here.
Qed.

Lemma exec_skip c t :
  isUpperAZ c = false -> exec UpperRun (c :: t) = exec UpperRun t.
Proof.
  intros E. unfold exec. simpl. unfold upper_here at 1. simpl.
  now rewrite E.
Qed.

Lemma all_matches_skip (pre t : jsstring) :
  forallb (fun c => negb (isUpperAZ c)) pre = true ->
  Reference.all_matches UpperRun (pre ++ t) = Reference.all_matches UpperRun t.
Proof.
  induction pre as [|c pre IH]; simpl; [reflexivity|].
  intros E. apply andb_true_iff in E as [Ec Ep]. apply negb_true_iff in Ec.
  rewrite all_matches_unfold, (exec_skip c _ Ec), <- all_matches_unfold.
  now apply IH.
Qed.

Lemma all_matches_no_capital (t : jsstring) :
  forallb (fun c => negb (isUpperAZ c)) t = true ->
  Reference.all_matches UpperRun t = [].
Proof.
  intros E. rewrite <- (app_nil_r t), (all_matches_skip _ _ E).
  now rewrite all_matches_unfold.
Qed.

(** A separator: not empty, without capital letters. *)
Definition separates (sep : jsstring) : bool :=
  negb (is_empty sep) && forallb (fun c => negb (isUpperAZ c)) sep.

Lemma separates_ends sep rest :
  separates sep = true -> ends_token (sep ++ rest) = true.
Proof.
  unfold separates. destruct sep as [|c sep]; simpl; [discriminate|].
  intros E. now apply andb_true_iff in E as [E _].
Qed.

Lemma all_matches_joined sep (l : list jsstring) tail :
  separates sep = true ->
  forallb is_symbol l = true ->
  forallb (fun c => negb (isUpperAZ c)) tail = true ->
  Reference.all_matches UpperRun (join sep l ++ tail) = map token_match l.
Proof.
  intros Hsep Hl Htail.
  assert (Hend : ends_token tail = true).
  { destruct tail as [|c tail]; simpl in *; [reflexivity|].
    now apply andb_true_iff in Htail as [E _]. }
  induction l as [|x l IH]; simpl.
  - now apply all_matches_no_capital.
  - apply andb_true_iff in Hl as [Hx Hl]. specialize (IH Hl).
    destruct l as [|y l].
    + rewrite all_matches_unfold, (exec_token _ _ Hx Hend). simpl.
      now rewrite all_matches_no_capital.
    + rewrite <- !app_assoc.
      rewrite all_matches_unfold,
        (exec_token _ _ Hx (separates_ends _ _ Hsep)).
      simpl map. f_equal. rewrite all_matches_skip; [exact IH|].
      unfold separates in Hsep. now apply andb_true_iff in Hsep as [_ E].
Qed.


Lemma forallb_join (p : code_unit -> bool) sep (l : list jsstring) :
  forallb p sep = true -> forallb (forallb p) l = true ->
  forallb p (join sep l) = true.
Proof.
  intros Hsep. induction l as [|x l IH]; simpl; [reflexivity|].
  intros E. apply andb_true_iff in E as [Ex El].
  destruct l as [|y l]; [exact Ex|].
  rewrite !forallb_app, Ex, Hsep. simpl. now apply IH.
Qed.

Lemma symbols_chars (p : code_unit -> bool) (l : list jsstring) :
  (forall c, isUpperAZ c = true -> p c = true) ->
  forallb is_symbol l = true -> forallb (forallb p) l = true.
Proof.
  intros W. induction l as [|x l IH]; simpl; [reflexivity|].
  intros E. apply andb_true_iff in E as [Ex El]. rewrite (IH El).
  apply is_symbol_capitals in Ex as (_ & U & _).
  now rewrite (forallb_weaken _ _ _ W U).
Qed.

Lemma capital_not c (x : N) :
  (x < 65 \/ 90 < x)%N -> isUpperAZ c = true -> negb (c =? x)%N = true.
Proof.
  intros R U. unfold isUpperAZ in U. apply andb_true_iff in U as [Lo Hi].
  apply N.leb_le in Lo, Hi. apply negb_true_iff, N.eqb_neq. lia.
Qed.

Lemma no_open_bracket (s : jsstring) :
  forallb (fun c => negb (c =? 91)%N) s = true ->
  search bracket_here s = None.
Proof.
  induction s as [|c t IH]; simpl; [reflexivity|].
  intros E. apply andb_true_iff in E as [Ec Et].
  apply negb_true_iff in Ec. now rewrite Ec, IH.
Qed.

Lemma add_present (l acc : list jsstring) :
  (forall x, In x l -> set_has acc x = true) ->
  fold_left add_if_symbol l acc = acc.
Proof.
  induction l as [|x l IH]; simpl; intros P; [reflexivity|].
  unfold add_if_symbol at 2, set_add. rewrite (P x (or_introl eq_refl)).
  destruct (is_symbol x); apply IH; auto.
Qed.

Lemma set_has_In (l : list jsstring) x : In x l -> set_has l x = true.
Proof.
  intros I. unfold set_has. apply existsb_exists. exists x.
  split; [exact I | apply str_eqb_refl].
Qed.

Lemma collected_distinct_symbols (l : list jsstring) :
  forallb is_symbol l = true -> NoDup l ->
  fold_left add_if_symbol l [] = l.
Proof.
  intros S D.
  now rewrite collected_symbols, filter_all_symbols, dedup_of_NoDup.
Qed.

Lemma map_whole_token (l : list jsstring) : map whole (map token_match l) = l.
Proof. induction l as [|x l IH]; simpl; [reflexivity | now rewrite IH]. Qed.

Lemma joined_symbols_parse (sep : jsstring) (l : list jsstring) :
  separates sep = true ->
  forallb (fun c => negb (c =? 91)%N) sep = true ->
  forallb is_symbol l = true ->
  NoDup l ->
  parseStockSymbols (join sep l) = l.
Proof.
  intros Hsep Hopen Hl Hd. rewrite parseStockSymbols_spec.
  rewrite no_bracket_no_match.
  - simpl. unfold Reference.bare_tokens.
    rewrite <- (app_nil_r (join sep l)).
    rewrite (all_matches_joined sep l [] Hsep Hl eq_refl), map_whole_token.
    now rewrite filter_all_symbols, dedup_of_NoDup.
  - apply no_open_bracket, forallb_join; [exact Hopen|].
    apply symbols_chars; [|exact Hl]. intros c. apply capital_not. lia.
Qed.

(** X2. Round trip through the plain form: symbols written one after the
    other with a separator that holds no capital letter and no opening
    bracket ("AAPL, MSFT", "AAPL MSFT", ...) are read back as they are. *)
Theorem parseStockSymbols_of_joined (sep : jsstring) (l : list jsstring) :
  separates sep = true ->
  forallb (fun c => negb (c =? 91)%N) sep = true ->
  forallb is_symbol l = true ->
  NoDup l ->
  parseStockSymbols (join sep l) = l.
Proof. exact (joined_symbols_parse sep l). Qed.

(** X1. What [parseStockSymbols] returns, on every input: words of one to five
    capital letters, none twice; and writing the result out with ", " and
    parsing it again gives the same list. *)
Theorem parseStockSymbols_invariant (input : jsstring) :
  let symbols := parseStockSymbols input in
  NoDup symbols
  /\ (forall symbol,
        In symbol symbols ->
        (1 <= length symbol <= 5)%nat /\ forallb isUpperAZ symbol = true)
  /\ parseStockSymbols (join (lit ", ") symbols) = symbols.
Proof.
  cbv zeta. destruct (parseStockSymbols_shape input) as [D S].
  split; [exact D|]. split; [exact S|].
  apply joined_symbols_parse; try reflexivity; [|exact D].
  apply forallb_forall. intros symbol Hin. now apply is_symbol_shape, S.
Qed.

(** Splitting a list written with ", " gives the first symbol and the
    others with a leading blank. *)
Lemma split_append sep a b :
  forallb (fun c => negb (c =? sep)%N) a = true ->
  split sep (a ++ sep :: b) = a :: split sep b.
Proof.
  induction a as [|c a IH]; simpl.
  - now rewrite N.eqb_refl.
  - intros E. apply andb_true_iff in E as [Ec Ea].
    apply negb_true_iff in Ec. now rewrite Ec, (IH Ea).
Qed.

Lemma join_cons (sep x y : jsstring) (l : list jsstring) :
  join sep (x :: y :: l) = x ++ sep ++ join sep (y :: l).
Proof. reflexivity. Qed.

Lemma split_blank (s : jsstring) :
  split 44 (32%N :: s)
  = match split 44 s with
    | [] => [[32%N]]
    | h :: r => (32%N :: h) :: r
    end.
Proof. reflexivity. Qed.

Lemma split_joined (x : jsstring) (l : list jsstring) :
  forallb is_symbol (x :: l) = true ->
  split 44 (join (lit ", ") (x :: l)) = x :: map (cons 32%N) l.
Proof.
  revert x; induction l as [|y l IH]; intros x E.
  - simpl in *. apply andb_true_iff in E as [Ex _].
    apply is_symbol_capitals in Ex as (_ & U & _).
    apply split_without_separator. revert U. apply forallb_weaken.
    intros c. apply capital_not. lia.
  - cbn [forallb] in E. apply andb_true_iff in E as [Ex El].
    specialize (IH y El). rewrite join_cons.
    remember (join (lit ", ") (y :: l)) as rest.
    change (lit ", " ++ rest) with (44%N :: 32%N :: rest).
    rewrite split_append.
    + now rewrite split_blank, IH.
    + apply is_symbol_capitals in Ex as (_ & U & _).
      revert U. apply forallb_weaken. intros c. apply capital_not. lia.
Qed.

Lemma trim_padded g : forallb isUpperAZ g = true -> trim (32%N :: g) = g.
Proof.
  intros U. unfold trim. cbn [dropWhile].
  change (isWhiteSpace 32) with true. cbv iota.
  now apply trim_capitals.
Qed.

Lemma list_tokens_joined (l : list jsstring) :
  l <> [] -> forallb is_symbol l = true ->
  Reference.list_tokens (join (lit ", ") l) = l.
Proof.
  destruct l as [|x l]; [contradiction|]. intros _ E.
  unfold Reference.list_tokens. rewrite (split_joined _ _ E).
  cbn [forallb] in E. apply andb_true_iff in E as [Ex El].
  apply is_symbol_capitals in Ex as (_ & U & _).
  cbn [map]. rewrite (trim_capitals _ U), (toUpperCase_capitals _ U).
  f_equal. induction l as [|y l IH]; simpl; [reflexivity|].
  cbn [forallb] in El. apply andb_true_iff in El as [Ey El].
  apply is_symbol_capitals in Ey as (_ & Uy & _).
  now rewrite (trim_padded _ Uy), (toUpperCase_capitals _ Uy), (IH El).
Qed.

Lemma joined_not_empty (l : list jsstring) :
  l <> [] -> forallb is_symbol l = true ->
  is_empty (join (lit ", ") l) = false.
Proof.
  destruct l as [|x l]; [contradiction|]. intros _ E.
  cbn [forallb] in E. apply andb_true_iff in E as [Ex _].
  apply is_symbol_capitals in Ex as (_ & _ & N).
  destruct x as [|c x]; [contradiction|]. now destruct l.
Qed.

(** A bracketed list at the start of a text. *)
Lemma bracket_here_list (g post : jsstring) :
  is_empty g = false ->
  forallb (fun x => negb (x =? 93)%N) g = true ->
  bracket_here (91%N :: g ++ 93%N :: post)
  = Some ({| whole := 91%N :: g ++ [93%N]; group1 := g |}, post).
Proof.
  intros N U. unfold bracket_here. rewrite N.eqb_refl.
  assert (Hspan : span (fun x => negb (x =? 93)%N) (g ++ 93%N :: post)
                  = (g, 93%N :: post)).
  { clear N. induction g as [|c g IH]; simpl in *; [reflexivity|].
    apply andb_true_iff in U as [Uc Ug]. now rewrite Uc, (IH Ug). }
  now rewrite Hspan, N, N.eqb_refl.
Qed.

Lemma bracket_here_joined (l : list jsstring) post :
  l <> [] -> forallb is_symbol l = true ->
  exists m,
    bracket_here (lit "[" ++ join (lit ", ") l ++ lit "]" ++ post)
    = Some (m, post)
    /\ group1 m = join (lit ", ") l.
Proof.
  intros N E. eexists. split.
  - remember (join (lit ", ") l) as g.
    change (lit "[" ++ g ++ lit "]" ++ post) with (91%N :: g ++ 93%N :: post).
    subst g. apply bracket_here_list.
    + now apply joined_not_empty.
    + apply forallb_join; [reflexivity|].
      apply symbols_chars; [|exact E]. intros c. apply capital_not. lia.
  - reflexivity.
Qed.

(** X3. Round trip through the bracketed form, for [parseStockSymbols]. *)
Theorem parseStockSymbols_of_bracketed (l : list jsstring) :
  l <> [] ->
  forallb is_symbol l = true ->
  NoDup l ->
  parseStockSymbols (lit "[" ++ join (lit ", ") l ++ lit "]") = l.
Proof.
  intros N E D. rewrite parseStockSymbols_spec.
  destruct (bracket_here_joined l [] N E) as (m & Hm & Hg).
  rewrite app_nil_r in Hm.
  assert (Hall : Reference.all_matches BracketList
                   (lit "[" ++ join (lit ", ") l ++ lit "]") = [m]).
  { rewrite all_matches_unfold. unfold exec. cbn [here].
    rewrite (search_here _ _ _ Hm). now rewrite all_matches_unfold. }
  rewrite Hall. cbn [map concat]. rewrite Hg, app_nil_r.
  rewrite (list_tokens_joined _ N E).
  unfold Reference.bare_tokens.
  change (lit "[" ++ join (lit ", ") l ++ lit "]")
    with ([91%N] ++ join (lit ", ") l ++ lit "]").
  rewrite (all_matches_skip [91%N]) by reflexivity.
  rewrite (all_matches_joined (lit ", ") l (lit "]")) by (reflexivity || exact E).
  rewrite map_whole_token, <- collected_symbols, fold_left_app.
  rewrite (collected_distinct_symbols _ E D).
  apply add_present. apply set_has_In.
Qed.

(** X4. The command the chat documents, "... [S1, S2, ...] ...", delivers the
    listed symbols as they are, whatever precedes (no opening bracket) and
    follows the list. *)
Theorem extractStockSymbols_of_bracketed (pre post : jsstring)
  (l : list jsstring) :
  forallb (fun c => negb (c =? 91)%N) pre = true ->
  l <> [] ->
  forallb is_symbol l = true ->
  extractStockSymbols
    (pre ++ lit "[" ++ join (lit ", ") l ++ lit "]" ++ post) = l.
Proof.
  intros Hpre N E. unfold extractStockSymbols.
  destruct (bracket_here_joined l post N E) as (m & Hm & Hg).
  assert (Hs : search bracket_here
                 (pre ++ lit "[" ++ join (lit ", ") l ++ lit "]" ++ post)
               = Some (m, post)).
  { induction pre as [|c pre IH]; [now apply search_here|].
    cbn [forallb] in Hpre. apply andb_true_iff in Hpre as [Hc Hpre].
    apply negb_true_iff in Hc. simpl. rewrite Hc. now apply IH. }
  rewrite Hs, Hg. now apply list_tokens_joined.
Qed.

End SymbolLists.

Section Amounts.

(** The text goes on with something that is not a digit, a comma or a
    dot. *)
Definition ends_amount (tail : jsstring) : bool :=
  match tail with
  | [] => true
  | c :: _ => negb (isAmountText c)
  end.

Lemma amountText_of_char c : isAmountChar c = true -> isAmountText c = true.
Proof. unfold isAmountText, isAmountChar. now intros ->. Qed.

Lemma span_run (p : code_unit -> bool) (run tail : jsstring) :
  forallb p run = true ->
  match tail with [] => True | c :: _ => p c = false end ->
  span p (run ++ tail) = (run, tail).
Proof.
  intros U E. induction run as [|c run IH]; simpl in *.
  - destruct tail as [|d tail]; simpl; [reflexivity | now rewrite E].
  - apply andb_true_iff in U as [Uc Ur]. now rewrite Uc, (IH Ur).
Qed.

Lemma amount_body_run (run tail : jsstring) :
  run <> [] -> forallb isAmountChar run = true -> ends_amount tail = true ->
  amount_body (run ++ tail) = Some (run, tail).
Proof.
  intros Hne U E. unfold amount_body. rewrite span_run; [|exact U|].
  - destruct run as [|r0 run]; [contradiction|].
    destruct tail as [|dot [|d1 [|d2 more]]]; try reflexivity.
    simpl in E. apply negb_true_iff in E. unfold isAmountText in E.
    apply orb_false_iff in E as [_ E]. now rewrite E.
  - destruct tail as [|c tail]; [exact I|]. simpl in E.
    apply negb_true_iff in E.
    destruct (isAmountChar c) eqn:A; [|reflexivity].
    apply amountText_of_char in A. congruence.
Qed.

Lemma amount_body_none (c : code_unit) (t : jsstring) :
  isAmountChar c = false -> amount_body (c :: t) = None.
Proof. intros E. unfold amount_body. simpl. now rewrite E. Qed.

(** The first match of the amount pattern, past a prefix without digits and
    commas. *)
Lemma amount_found (pre s g rest : jsstring) :
  forallb (fun c => negb (isAmountChar c)) pre = true ->
  amount_body s = Some (g, rest) ->
  exists m, search amount_here (pre ++ s) = Some (m, rest) /\ group1 m = g.
Proof.
  intros Hpre Hs. induction pre as [|c pre IH]; simpl app.
  - exists {| whole := g; group1 := g |}. split; [|reflexivity].
    apply search_here. unfold amount_here. rewrite Hs.
    destruct s as [|c t]; [reflexivity|].
    destruct (c =? 36)%N eqn:D; [|reflexivity].
    apply N.eqb_eq in D. subst c.
    unfold amount_body in Hs. simpl in Hs. discriminate.
  - cbn [forallb] in Hpre. apply andb_true_iff in Hpre as [Hc Hpre].
    apply negb_true_iff in Hc. specialize (IH Hpre).
    cbn [search]. unfold amount_here at 1.
    rewrite (amount_body_none _ _ Hc).
    destruct (c =? 36)%N; [|exact IH].
    destruct pre as [|d pre].
    + simpl app. rewrite Hs. eexists. split; reflexivity.
    + cbn [forallb] in Hpre. apply andb_true_iff in Hpre as [Hd _].
      apply negb_true_iff in Hd. simpl app.
      now rewrite (amount_body_none _ _ Hd).
Qed.

Lemma extract_run (pre run tail : jsstring) :
  forallb (fun c => negb (isAmountChar c)) pre = true ->
  run <> [] -> forallb isAmountChar run = true -> ends_amount tail = true ->
  extractInvestmentAmount (pre ++ run ++ tail)
  = parseFloat (replace_first 44 run).
Proof.
  intros Hpre Hne U E. unfold extractInvestmentAmount.
  destruct (amount_found pre _ _ _ Hpre (amount_body_run _ _ Hne U E))
    as (m & -> & ->).
  reflexivity.
Qed.

Lemma digits_no_comma (ds : jsstring) :
  forallb isDigit ds = true -> replace_first 44 ds = ds.
Proof.
  induction ds as [|c ds IH]; simpl; [reflexivity|].
  intros E. apply andb_true_iff in E as [Ec Ed].
  replace (c =? 44)%N with false; [now rewrite (IH Ed)|].
  unfold isDigit in Ec. apply andb_true_iff in Ec as [Lo _].
  apply N.leb_le in Lo. symmetry. apply N.eqb_neq. lia.
Qed.

Lemma parseFloat_digits (ds : jsstring) :
  ds <> [] -> forallb isDigit ds = true ->
  parseFloat ds = Num (decimal ds []).
Proof.
  intros Hne U. unfold parseFloat.
  rewrite <- (app_nil_r ds) at 1. rewrite (span_run isDigit ds [] U I).
  destruct ds; [contradiction | reflexivity].
Qed.

Lemma digit_amountChar c : isDigit c = true -> isAmountChar c = true.
Proof. unfold isAmountChar. now intros ->. Qed.

(** X5. The first number wins: past text without digits and commas, a run of
    digits that is not continued by a comma or a dot is the amount, whatever
    follows (a later dollar amount included).  The run writes an integer
    below [2^53], which the double holds exactly. *)
Theorem first_number_is_the_amount (pre ds tail : jsstring) :
  forallb (fun c => negb (isAmountChar c)) pre = true ->
  ds <> [] ->
  forallb isDigit ds = true ->
  (digits_value ds < 2 ^ 53)%N ->
  ends_amount tail = true ->
  extractInvestmentAmount (pre ++ ds ++ tail) = Num (decimal ds []).
Proof.
  intros Hpre Hne U _ E.
  rewrite extract_run; auto.
  - now rewrite digits_no_comma, parseFloat_digits.
  - revert U. apply forallb_weaken, digit_amountChar.
Qed.

(** X6. One thousands separator is handled: the digits on both sides of a
    single comma are read as one number, when that number is an integer
    below [2^53], which the double holds exactly. *)
Theorem single_comma_amount (pre a b tail : jsstring) :
  forallb (fun c => negb (isAmountChar c)) pre = true ->
  a <> [] ->
  forallb isDigit a = true ->
  forallb isDigit b = true ->
  (digits_value (a ++ b) < 2 ^ 53)%N ->
  ends_amount tail = true ->
  extractInvestmentAmount (pre ++ (a ++ lit "," ++ b) ++ tail)
  = Num (decimal (a ++ b) []).
Proof.
  intros Hpre Hne Ua Ub _ E.
  rewrite extract_run; auto.
  - assert (R : replace_first 44 (a ++ lit "," ++ b) = a ++ b).
    { clear Hne. induction a as [|c a IH]; [reflexivity|].
      cbn [forallb] in Ua. apply andb_true_iff in Ua as [Uc Ua].
      cbn [app replace_first].
      replace (c =? 44)%N with false; [now rewrite (IH Ua)|].
      unfold isDigit in Uc. apply andb_true_iff in Uc as [Lo _].
      apply N.leb_le in Lo. symmetry. apply N.eqb_neq. lia. }
    rewrite R. apply parseFloat_digits.
    + destruct a; [contradiction | discriminate].
    + now rewrite forallb_app, Ua, Ub.
  - destruct a; [contradiction | discriminate].
  - rewrite !forallb_app.
    rewrite (forallb_weaken _ _ _ digit_amountChar Ua).
    now rewrite (forallb_weaken _ _ _ digit_amountChar Ub).
Qed.

End Amounts.

(* ===================================================================== *)
(** ** Further properties of the dispatcher *)
(* ===================================================================== *)

(** A backend operation, as opposed to the publication of a result. *)
Definition is_call `{Host} (e : Effect) : bool :=
  match e with
  | PortfolioUpdate _ => false
  | _ => true
  end.

(** The message of the error thrown when the operation behind a call is
    rejected. *)
Definition failure_text `{Host} (e : Effect) : jsstring :=
  match e with
  | CallInitializeSystem => lit "Failed to initialize the system"
  | CallAddCustomStocks _ => lit "Failed to add custom stocks"
  | CallGetRecommendations _ _ => lit "Failed to get recommendations"
  | CallListCustomStocks => lit "Failed to get custom stocks list"
  | PortfolioUpdate _ => []
  end.

Lemma split_length sep s :
  length (split sep s) = S (length (filter (fun c => (c =? sep)%N) s)).
Proof.
  induction s as [|c t IH]; simpl; [reflexivity|].
  destruct (c =? sep)%N; simpl; [now rewrite IH|].
  destruct (split sep t); simpl in *; lia.
Qed.

Section OneOperation.
Context `{Host}.
Variables (api : ApiService) (viewer : locale).

(** X7. A message triggers one backend operation at most. *)
Theorem one_operation_per_message (message : jsstring) :
  (length (filter is_call (effects (processMessage api viewer message)))
   <= 1)%nat.
Proof.
  rewrite processMessage_route. cbv zeta.
  destruct (asksInitialize _); [simpl; lia|].
  destruct (asksAddStocks _ && _); [simpl; lia|].
  unfold afterAddStocks, recommendationsBranch.
  destruct (asksRecommendations _).
  - destruct (getRecommendations _ _ _) as [result|];
      [destruct (rec_success result)|]; simpl; lia.
  - destruct (asksListStocks _); simpl; lia.
Qed.

(** X8. The portfolio view is updated exactly with the successful
    recommendation the reply reports: a published result is the backend's
    successful answer and the reply is its formatted report, and every
    successful answer is published. *)
Theorem portfolio_update_on_success (message : jsstring) :
  let run := processMessage api viewer message in
  (forall result,
     In (PortfolioUpdate result) (effects run) ->
     getRecommendations api
       (extractRiskTolerance (toLowerCase message))
       (extractInvestmentAmount message) = Fulfilled result
     /\ rec_success result = true
     /\ outcome run = Return (formatPortfolioResponse viewer result))
  /\ (forall riskTolerance amount result,
        In (CallGetRecommendations riskTolerance amount) (effects run) ->
        getRecommendations api riskTolerance amount = Fulfilled result ->
        rec_success result = true ->
        In (PortfolioUpdate result) (effects run)).
Proof.
  cbv zeta. split.
  - intros result. rewrite processMessage_route. cbv zeta.
    destruct (asksInitialize _); [intros [E|[]]; discriminate|].
    destruct (asksAddStocks _ && _); [intros [E|[]]; discriminate|].
    unfold afterAddStocks, recommendationsBranch.
    destruct (asksRecommendations _).
    + destruct (getRecommendations _ _ _) as [answer|] eqn:G;
        [destruct (rec_success answer) eqn:S|]; simpl.
      * intros [E|[E|[]]]; [discriminate|]. injection E as <-. auto.
      * intros [E|[]]. discriminate.
      * intros [E|[]]. discriminate.
    + destruct (asksListStocks _); simpl; [intros [E|[]]; discriminate|].
      intros [].
  - intros riskTolerance amount result Hcall Hget Hok.
    apply recommendation_call in Hcall as (-> & -> & ->).
    unfold recommendationsBranch. rewrite Hget, Hok. simpl. auto.
Qed.

(** X9. The error a run throws is one of four fixed texts, chosen by the
    operation that was rejected: whatever the backend or the network
    reported is not shown. *)
Theorem thrown_message_names_operation (message diagnostic : jsstring) :
  outcome (processMessage api viewer message) = Throw diagnostic ->
  exists call,
    effects (processMessage api viewer message) = [call]
    /\ rejects api call = true
    /\ diagnostic = failure_text call.
Proof.
  rewrite processMessage_route. cbv zeta.
  destruct (asksInitialize _).
  { unfold initializeBranch. simpl.
    destruct (initializeSystem api) as [result|] eqn:E;
      [destruct (init_success result); discriminate|].
    intros [= <-]. eexists. repeat split. simpl. now rewrite E. }
  destruct (asksAddStocks _ && _).
  { unfold addStocksBranch. simpl.
    destruct (addCustomStocks api _) as [result|] eqn:E;
      [destruct (add_success result); discriminate|].
    intros [= <-]. eexists. repeat split. simpl. now rewrite E. }
  unfold afterAddStocks.
  destruct (asksRecommendations _).
  { unfold recommendationsBranch.
    destruct (getRecommendations api _ _) as [result|] eqn:E;
      [destruct (rec_success result); discriminate|].
    simpl. intros [= <-]. eexists. repeat split. simpl. now rewrite E. }
  destruct (asksListStocks _); [|discriminate].
  unfold listStocksBranch. simpl.
  destruct (listCustomStocks api) as [result|] eqn:E.
  - destruct (list_success result); [|discriminate].
    destruct (0 <? _)%nat; discriminate.
  - intros [= <-]. eexists. repeat split. simpl. now rewrite E.
Qed.

(** X10. A message that satisfies the AddStocks condition (its lower-cased
    text contains "add" and either "stock" or "[", and neither "initialize"
    nor "start") and holds a bracketed list always reaches the backend, with
    one symbol per comma-separated slot of the list, blank slots included:
    the list sent is never empty. *)
Theorem bracketed_add_sends_every_slot (message : jsstring)
  (m : RegExpMatch) (rest : jsstring) :
  asksInitialize (toLowerCase message) = false ->
  asksAddStocks (toLowerCase message) = true ->
  search bracket_here message = Some (m, rest) ->
  effects (processMessage api viewer message)
  = [CallAddCustomStocks (extractStockSymbols message)]
  /\ length (extractStockSymbols message)
     = S (length (filter (fun c => (c =? 44)%N) (group1 m))).
Proof.
  intros Hinit Hadd Hm.
  assert (L : length (extractStockSymbols message)
              = S (length (filter (fun c => (c =? 44)%N) (group1 m)))).
  { unfold extractStockSymbols. rewrite Hm.
    now rewrite length_map, split_length. }
  split; [|exact L].
  rewrite processMessage_route. cbv zeta. rewrite Hinit, Hadd, L.
  reflexivity.
Qed.

End OneOperation.

(* ===================================================================== *)
(** ** A chat session: the transcript over successive submissions *)
(* ===================================================================== *)

Module Session.

Section WithHost.
Context `{Host}.

Definition greeting : jsstring :=
  lit "Hello! I'm your AI Stock Advisor. I can help you with:" ++ nl ++ nl
  ++ bullet :: lit " Adding custom stocks to your portfolio" ++ nl
  ++ bullet :: lit " Getting personalized stock recommendations" ++ nl
  ++ bullet :: lit " Analyzing market clusters" ++ nl
  ++ bullet :: lit " Managing your investment strategy" ++ nl ++ nl
  ++ lit "What would you like to do today?".

(** The state the component starts in; [id] and [time] are what
    [generateId()] and [new Date()] return for the greeting. *)
Definition greetingMessage (id : jsstring) (time : N) : Message :=
  {| msg_id := id; msg_type := agent; content := greeting;
     timestamp := time |}.

Definition initialState (id : jsstring) (time : N) : ChatState :=
  {| messages := [greetingMessage id time];
     inputValue := [];
     isLoading := false;
     error := None |}.

(** [onChange] of the input box: [setInputValue(e.target.value)]. *)
Definition onChange (st : ChatState) (value : jsstring) : ChatState :=
  {| messages := messages st;
     inputValue := value;
     isLoading := isLoading st;
     error := error st |}.

(** One round: the user types [typed] and submits the form; the backend
    behaves as [backend] while the request runs, and the two new messages
    are stamped with [stamps]. *)
Record Round := {
  backend : ApiService;
  stamps : Stamps;
  typed : jsstring
}.

Definition play (viewer : locale) (st : ChatState) (r : Round) : ChatState :=
  fst (handleSubmit (backend r) viewer (stamps r) (onChange st (typed r))).

(** Successive rounds, each submitted once the previous one has finished. *)
Definition session (viewer : locale) (rounds : list Round) (st : ChatState)
  : ChatState :=
  fold_left (play viewer) rounds st.

(** The rounds whose input is not blank. *)
Definition spoken (r : Round) : bool := negb (is_empty (trim (typed r))).

(** A user message and the agent message that answers it. *)
Definition exchange (p : Message * Message) : list Message :=
  [fst p; snd p].

Definition well_paired (p : Message * Message) : Prop :=
  msg_type (fst p) = user /\ msg_type (snd p) = agent.

End WithHost.
End Session.

Section SessionInvariant.
Context `{Host}.
Variable viewer : locale.
Import Session.

Lemma play_round (st : ChatState) (r : Round) :
  isLoading st = false ->
  isLoading (play viewer st r) = false
  /\ if spoken r
     then exists answer,
            messages (play viewer st r)
            = messages st
              ++ exchange ({| msg_id := user_id (stamps r); msg_type := user;
                              content := trim (typed r);
                              timestamp := user_time (stamps r) |}, answer)
            /\ msg_type answer = agent
     else messages (play viewer st r) = messages st.
Proof.
  intros Idle. unfold play, handleSubmit, spoken. cbn [onChange inputValue isLoading].
  rewrite Idle, orb_false_r.
  destruct (is_empty (trim (typed r))); cbn [negb fst].
  - split; [exact Idle | reflexivity].
  - cbn [content].
    destruct (outcome _); cbn [fst isLoading messages]; split;
      try reflexivity; eexists; rewrite <- app_assoc; split; reflexivity.
Qed.

Lemma session_from (rounds : list Round) :
  forall st,
    isLoading st = false ->
    isLoading (session viewer rounds st) = false
    /\ exists pairs,
         messages (session viewer rounds st)
         = messages st ++ flat_map exchange pairs
         /\ map (fun p => content (fst p)) pairs
            = map (fun r => trim (typed r)) (filter spoken rounds)
         /\ Forall well_paired pairs.
Proof.
  induction rounds as [|r rounds IH]; intros st Idle.
  - split; [exact Idle|]. exists []. simpl. now rewrite app_nil_r.
  - destruct (play_round st r Idle) as [Idle' Hstep].
    destruct (IH (play viewer st r) Idle') as (Hidle & pairs & Hm & Ht & Hp).
    change (session viewer (r :: rounds) st)
      with (session viewer rounds (play viewer st r)).
    split; [exact Hidle|]. cbn [filter].
    destruct (spoken r).
    + destruct Hstep as (answer & Hstep & Hagent).
      eexists (_ :: pairs). rewrite Hm, Hstep, <- app_assoc.
      split; [reflexivity|]. split; [cbn [map fst content]; now rewrite Ht|].
      constructor; [split; [reflexivity | exact Hagent] | exact Hp].
    + exists pairs. now rewrite Hm, Hstep.
Qed.

(** X11. Whatever the user types and however the backend behaves, after any
    number of rounds the transcript is the greeting followed by one
    user/agent exchange per non-blank input, in order, the user messages
    holding the trimmed inputs; blank inputs leave no trace, and the
    component is idle again. *)
Theorem transcript_of_session (rounds : list Round) (id : jsstring)
  (time : N) :
  let st := session viewer rounds (initialState id time) in
  isLoading st = false
  /\ exists pairs,
       messages st = greetingMessage id time :: flat_map exchange pairs
       /\ map (fun p => content (fst p)) pairs
          = map (fun r => trim (typed r)) (filter spoken rounds)
       /\ Forall well_paired pairs.
Proof.
  cbv zeta. apply (session_from rounds (initialState id time)). reflexivity.
Qed.

End SessionInvariant.

(* ===================================================================== *)
(** ** [StockManager] : the stock form (first component of
       [frontend/components/StockManager.tsx]) *)
(* ===================================================================== *)

Module StockManager.

Section WithHost.
Context `{Host}.

Record ClearResponse := {
  clear_success : bool;
  clear_message : jsstring;
  removed_count : number
}.

(** The operations of [apiService] the form uses: those of the chat, and
    the health check, removal and clearing.  [health] is how
    [api.get('/health')] settles: fulfilled with the status of the
    response, or rejected. *)
Record StockApi := {
  operations : ApiService;
  health : Settled N;
  removeCustomStocks : list jsstring -> Settled CustomStockResponse;
  clearCustomStocks : Settled ClearResponse
}.

(** [apiService.checkHealth] ([lib/api.ts]): never rejects. *)
Definition checkHealth (api : StockApi) : bool :=
  match health api with
  | Fulfilled status => (status =? 200)%N
  | Rejected => false
  end.

Inductive NoticeType := Success | Error.

Record Notice := { notice_type : NoticeType; text : jsstring }.

Record State := {
  customStocks : list jsstring;
  newStocks : jsstring;
  isLoading : bool;
  message : option Notice;
  isInitialized : bool
}.

(** The backend operations a handler calls, in order. *)
Inductive Call :=
| Health
| ListStocks
| AddStocks (stocks : list jsstring)
| RemoveStocks (stocks : list jsstring)
| ClearStocks.

Definition setCustomStocks (st : State) (stocks : list jsstring) : State :=
  {| customStocks := stocks; newStocks := newStocks st;
     isLoading := isLoading st; message := message st;
     isInitialized := isInitialized st |}.

Definition setNewStocks (st : State) (value : jsstring) : State :=
  {| customStocks := customStocks st; newStocks := value;
     isLoading := isLoading st; message := message st;
     isInitialized := isInitialized st |}.

Definition setIsLoading (st : State) (value : bool) : State :=
  {| customStocks := customStocks st; newStocks := newStocks st;
     isLoading := value; message := message st;
     isInitialized := isInitialized st |}.

Definition setMessage (st : State) (value : option Notice) : State :=
  {| customStocks := customStocks st; newStocks := newStocks st;
     isLoading := isLoading st; message := value;
     isInitialized := isInitialized st |}.

Definition setIsInitialized (st : State) (value : bool) : State :=
  {| customStocks := customStocks st; newStocks := newStocks st;
     isLoading := isLoading st; message := message st;
     isInitialized := value |}.

Definition checkSystemStatus (api : StockApi) (st : State)
  : State * list Call :=
  (if checkHealth api then setIsInitialized st true else st, [Health]).

Definition loadCustomStocks (api : StockApi) (st : State)
  : State * list Call :=
  (match listCustomStocks (operations api) with
   | Fulfilled result =>
       if list_success result
       then setCustomStocks st (custom_stocks result)
       else st
   | Rejected => st
   end, [ListStocks]).

(** [useEffect(() => { loadCustomStocks(); checkSystemStatus(); }, [])] *)
Definition mount (api : StockApi) (st : State) : State * list Call :=
  let (st1, calls1) := loadCustomStocks api st in
  let (st2, calls2) := checkSystemStatus api st1 in
  (st2, calls1 ++ calls2).

(** The end of a handler that reached the backend: the notice is shown,
    the list is read again after a success, and [finally] releases the
    loading flag. *)
Definition finish (api : StockApi) (st : State) (call : Call)
  (notice : Notice) (reload : bool) : State * list Call :=
  let st1 := setMessage (setIsLoading st true) (Some notice) in
  if reload then
    let (st2, calls) := loadCustomStocks api st1 in
    (setIsLoading st2 false, call :: calls)
  else (setIsLoading st1 false, [call]).

Definition handleAddStocks (api : StockApi) (st : State)
  : State * list Call :=
  if is_empty (trim (newStocks st)) then (st, [])
  else
    let stocks := Utils.parseStockSymbols (newStocks st) in
    if (length stocks =? 0)%nat then
      (setMessage st
         (Some {| notice_type := Error;
                  text := lit "Please enter valid stock symbols" |}), [])
    else
      match addCustomStocks (operations api) stocks with
      | Fulfilled result =>
          if add_success result then
            finish api (setNewStocks st []) (AddStocks stocks)
              {| notice_type := Success;
                 text := lit "Successfully added "
                         ++ nat_to_string (length_or_0 (added result))
                         ++ lit " stocks" |} true
          else
            finish api st (AddStocks stocks)
              {| notice_type := Error; text := add_message result |} false
      | Rejected =>
          finish api st (AddStocks stocks)
            {| notice_type := Error; text := lit "Failed to add stocks" |}
            false
      end.

Definition handleRemoveStock (api : StockApi) (stock : jsstring) (st : State)
  : State * list Call :=
  match removeCustomStocks api [stock] with
  | Fulfilled result =>
      if add_success result then
        finish api st (RemoveStocks [stock])
          {| notice_type := Success; text := lit "Removed " ++ stock |} true
      else
        finish api st (RemoveStocks [stock])
          {| notice_type := Error; text := add_message result |} false
  | Rejected =>
      finish api st (RemoveStocks [stock])
        {| notice_type := Error; text := lit "Failed to remove stock" |}
        false
  end.

(** [confirmed] is the answer to the [confirm] dialog. *)
Definition handleClearAll (api : StockApi) (confirmed : bool) (st : State)
  : State * list Call :=
  if negb confirmed then (st, [])
  else
    match clearCustomStocks api with
    | Fulfilled result =>
        if clear_success result then
          finish api st ClearStocks
            {| notice_type := Success;
               text := lit "Cleared all custom stocks" |} true
        else
          finish api st ClearStocks
            {| notice_type := Error; text := clear_message result |} false
    | Rejected =>
        finish api st ClearStocks
          {| notice_type := Error; text := lit "Failed to clear stocks" |}
          false
    end.

(** What the user can do with the form. *)
Inductive Action :=
| ClickAdd
| ClickRemove (stock : jsstring)
| ClickClearAll (confirmed : bool).

Definition perform (api : StockApi) (a : Action) (st : State)
  : State * list Call :=
  match a with
  | ClickAdd => handleAddStocks api st
  | ClickRemove stock => handleRemoveStock api stock st
  | ClickClearAll confirmed => handleClearAll api confirmed st
  end.

End WithHost.
End StockManager.

(** *** Properties of the stock form *)

Section StockForm.
Context `{Host}.
Import StockManager.

(** The mutation behind a call was carried out: the operation was
    fulfilled with [success: true]. *)
Definition succeeded (api : StockApi) (c : Call) : bool :=
  match c with
  | AddStocks stocks =>
      match addCustomStocks (operations api) stocks with
      | Fulfilled result => add_success result
      | Rejected => false
      end
  | RemoveStocks stocks =>
      match removeCustomStocks api stocks with
      | Fulfilled result => add_success result
      | Rejected => false
      end
  | ClearStocks =>
      match clearCustomStocks api with
      | Fulfilled result => clear_success result
      | Rejected => false
      end
  | Health | ListStocks => false
  end.

Definition is_mutation (c : Call) : bool :=
  match c with
  | AddStocks _ | RemoveStocks _ | ClearStocks => true
  | Health | ListStocks => false
  end.

Lemma parseStockSymbols_without_capitals (input : jsstring) :
  search bracket_here input = None ->
  forallb (fun c => negb (isUpperAZ c)) input = true ->
  Utils.parseStockSymbols input = [].
Proof.
  intros Hb Hc. rewrite parseStockSymbols_spec.
  rewrite (no_bracket_no_match input Hb). unfold Reference.bare_tokens.
  now rewrite (all_matches_no_capital input Hc).
Qed.

(** X12. The form never sends anything but symbols: any list handed to
    [addCustomStocks] is not empty, has no duplicates, and holds words of
    one to five capital letters only. *)
Theorem handleAddStocks_sends_symbols (api : StockApi) (st : State)
  (stocks : list jsstring) :
  In (AddStocks stocks) (snd (handleAddStocks api st)) ->
  stocks <> []
  /\ NoDup stocks
  /\ forall symbol,
       In symbol stocks ->
       (1 <= length symbol <= 5)%nat /\ forallb isUpperAZ symbol = true.
Proof.
  unfold handleAddStocks.
  destruct (is_empty (trim (newStocks st))); [intros []|].
  destruct (length (Utils.parseStockSymbols (newStocks st)) =? 0)%nat eqn:L;
    [intros []|].
  intros Hin.
  assert (E : stocks = Utils.parseStockSymbols (newStocks st)).
  { destruct (addCustomStocks _ _) as [result|];
      [destruct (add_success result)|]; unfold finish in Hin;
      simpl in Hin; destruct Hin as [E|Hin]; try (now injection E);
      try contradiction.
    destruct Hin as [E|[]]. discriminate. }
  subst stocks. split.
  - intros E. rewrite E in L. discriminate.
  - apply parseStockSymbols_shape.
Qed.

(** X13. Tickers typed in lower case without brackets are refused: for a
    non-blank input with no bracketed list and no capital letter, nothing
    is sent, the input is kept, and the form asks for valid symbols. *)
Theorem handleAddStocks_refuses_lowercase (api : StockApi) (st : State) :
  is_empty (trim (newStocks st)) = false ->
  search bracket_here (newStocks st) = None ->
  forallb (fun c => negb (isUpperAZ c)) (newStocks st) = true ->
  handleAddStocks api st
  = (setMessage st
       (Some {| notice_type := Error;
                text := lit "Please enter valid stock symbols" |}), []).
Proof.
  intros Hblank Hb Hc. unfold handleAddStocks. rewrite Hblank.
  now rewrite (parseStockSymbols_without_capitals _ Hb Hc).
Qed.

Lemma finish_reload (api : StockApi) (st : State) (c : Call) (n : Notice) :
  let r := finish api st c n true in
  snd r = [c; ListStocks]
  /\ isLoading (fst r) = false
  /\ newStocks (fst r) = newStocks st
  /\ message (fst r) = Some n
  /\ (customStocks (fst r) = customStocks st
      \/ exists result,
           listCustomStocks (operations api) = Fulfilled result
           /\ list_success result = true
           /\ customStocks (fst r) = custom_stocks result).
Proof.
  cbv zeta. unfold finish, loadCustomStocks.
  destruct (listCustomStocks (operations api)) as [result|] eqn:E;
    [destruct (list_success result) eqn:S|]; simpl; repeat split; eauto.
Qed.

Lemma finish_no_reload (api : StockApi) (st : State) (c : Call)
  (n : Notice) :
  finish api st c n false
  = (setIsLoading (setMessage (setIsLoading st true) (Some n)) false, [c]).
Proof. reflexivity. Qed.

(** X14. For the three mutations of the form (add, remove, clear all): the list
    of custom stocks is read again exactly when the mutation succeeded, and
    the displayed list changes only to what that reading returns; a
    mutation that failed or was rejected is the only call, leaves the list
    and the typed text as they were and shows an error notice; and once the
    backend has been called the loading flag is released. *)
Theorem list_reloaded_after_success (api : StockApi) (a : Action)
  (st : State) :
  let st' := fst (perform api a st) in
  let calls := snd (perform api a st) in
  (calls = []
   \/ exists mutation,
        is_mutation mutation = true
        /\ isLoading st' = false
        /\ if succeeded api mutation
           then calls = [mutation; ListStocks]
           else calls = [mutation]
                /\ customStocks st' = customStocks st
                /\ newStocks st' = newStocks st
                /\ exists notice,
                     message st' = Some notice
                     /\ notice_type notice = Error)
  /\ (customStocks st' = customStocks st
      \/ In ListStocks calls
         /\ exists result,
              listCustomStocks (operations api) = Fulfilled result
              /\ list_success result = true
              /\ customStocks st' = custom_stocks result).
Proof.
  cbv zeta. destruct a as [|stock|confirmed]; cbn [perform].
  - unfold handleAddStocks.
    destruct (is_empty (trim (newStocks st))); [simpl; auto|].
    destruct (length _ =? 0)%nat; [simpl; auto|].
    set (stocks := Utils.parseStockSymbols (newStocks st)).
    destruct (addCustomStocks (operations api) stocks) as [result|] eqn:E;
      [destruct (add_success result) eqn:S|].
    + destruct (finish_reload api (setNewStocks st []) (AddStocks stocks)
                  {| notice_type := Success;
                     text := lit "Successfully added "
                             ++ nat_to_string (length_or_0 (added result))
                             ++ lit " stocks" |})
        as (Hc & Hl & _ & _ & Hs).
      rewrite Hc. split.
      * right. exists (AddStocks stocks). cbn [is_mutation succeeded].
        rewrite E, S. auto.
      * destruct Hs as [Hs|Hs]; [left; exact Hs | right].
        split; [simpl; auto | exact Hs].
    + rewrite finish_no_reload. cbn [fst snd]. split; [|now left].
      right. exists (AddStocks stocks). cbn [is_mutation succeeded].
      rewrite E, S. simpl. repeat split; eauto.
    + rewrite finish_no_reload. cbn [fst snd]. split; [|now left].
      right. exists (AddStocks stocks). cbn [is_mutation succeeded].
      rewrite E. simpl. repeat split; eauto.
  - unfold handleRemoveStock.
    destruct (removeCustomStocks api [stock]) as [result|] eqn:E;
      [destruct (add_success result) eqn:S|].
    + destruct (finish_reload api st (RemoveStocks [stock])
                  {| notice_type := Success;
                     text := lit "Removed " ++ stock |})
        as (Hc & Hl & _ & _ & Hs).
      rewrite Hc. split.
      * right. exists (RemoveStocks [stock]). cbn [is_mutation succeeded].
        rewrite E, S. auto.
      * destruct Hs as [Hs|Hs]; [left; exact Hs | right].
        split; [simpl; auto | exact Hs].
    + rewrite finish_no_reload. cbn [fst snd]. split; [|now left].
      right. exists (RemoveStocks [stock]). cbn [is_mutation succeeded].
      rewrite E, S. simpl. repeat split; eauto.
    + rewrite finish_no_reload. cbn [fst snd]. split; [|now left].
      right. exists (RemoveStocks [stock]). cbn [is_mutation succeeded].
      rewrite E. simpl. repeat split; eauto.
  - unfold handleClearAll.
    destruct confirmed; cbn [negb]; [|simpl; auto].
    destruct (clearCustomStocks api) as [result|] eqn:E;
      [destruct (clear_success result) eqn:S|].
    + destruct (finish_reload api st ClearStocks
                  {| notice_type := Success;
                     text := lit "Cleared all custom stocks" |})
        as (Hc & Hl & _ & _ & Hs).
      rewrite Hc. split.
      * right. exists ClearStocks. cbn [is_mutation succeeded].
        rewrite E, S. auto.
      * destruct Hs as [Hs|Hs]; [left; exact Hs | right].
        split; [simpl; auto | exact Hs].
    + rewrite finish_no_reload. cbn [fst snd]. split; [|now left].
      right. exists ClearStocks. cbn [is_mutation succeeded].
      rewrite E, S. simpl. repeat split; eauto.
    + rewrite finish_no_reload. cbn [fst snd]. split; [|now left].
      right. exists ClearStocks. cbn [is_mutation succeeded].
      rewrite E. simpl. repeat split; eauto.
Qed.

End StockForm.

(* ===================================================================== *)
(** ** The further properties at concrete inputs *)
(* ===================================================================== *)

Module Instances.

#[local] Existing Instance BasicLatin.host.

Definition tickers : list jsstring := [lit "AAPL"; lit "MSFT"].

Lemma tickers_distinct : NoDup tickers.
Proof.
  constructor; [intros [E|[]]; discriminate|].
  constructor; [intros []|constructor].
Qed.

Lemma tickers_not_empty : tickers <> [].
Proof. discriminate. Qed.

(** A form whose backend is unreachable. *)
Definition unreachable : StockManager.StockApi :=
  {| StockManager.operations := Scenario.offline;
     StockManager.health := Rejected;
     StockManager.removeCustomStocks := fun _ => Rejected;
     StockManager.clearCustomStocks := Rejected |}.

Definition form (typed : jsstring) : StockManager.State :=
  {| StockManager.customStocks := [];
     StockManager.newStocks := typed;
     StockManager.isLoading := false;
     StockManager.message := None;
     StockManager.isInitialized := true |}.

End Instances.

(** "AAPL, MSFT", the plain form of the quick actions. *)
Lemma parseStockSymbols_of_joined_witness :
  Utils.parseStockSymbols (H := BasicLatin.host) (lit "AAPL, MSFT")
  = [lit "AAPL"; lit "MSFT"].
Proof.
  apply (@parseStockSymbols_of_joined BasicLatin.host (lit ", ")
           Instances.tickers eq_refl eq_refl eq_refl
           Instances.tickers_distinct).
Defined.

(** "[AAPL, MSFT]", the bracketed form. *)
Lemma parseStockSymbols_of_bracketed_witness :
  Utils.parseStockSymbols (H := BasicLatin.host) (lit "[AAPL, MSFT]")
  = [lit "AAPL"; lit "MSFT"].
Proof.
  apply (@parseStockSymbols_of_bracketed BasicLatin.host
           Instances.tickers Instances.tickers_not_empty eq_refl
           Instances.tickers_distinct).
Defined.

(** The command of the help text. *)
Lemma extractStockSymbols_of_bracketed_witness :
  extractStockSymbols (H := BasicLatin.host)
    (lit "Add the following stocks: [AAPL, MSFT]")
  = [lit "AAPL"; lit "MSFT"].
Proof.
  apply (@extractStockSymbols_of_bracketed BasicLatin.host
           (lit "Add the following stocks: ") [] Instances.tickers
           eq_refl Instances.tickers_not_empty eq_refl).
Defined.

(** An earlier number shadows the dollar amount. *)
Lemma first_number_is_the_amount_witness :
  extractInvestmentAmount (lit "I have 2 kids and $5,000 to invest")
  = Num 2.
Proof.
  assert (Hds : lit "2" <> []) by discriminate.
  apply (first_number_is_the_amount (lit "I have ") (lit "2")
           (lit " kids and $5,000 to invest") eq_refl Hds eq_refl eq_refl
           eq_refl).
Defined.

(** Five thousand dollars, written with its thousands separator. *)
Lemma single_comma_amount_witness :
  extractInvestmentAmount
    (lit "I want conservative recommendations for $5,000 please")
  = Num 5000.
Proof.
  assert (Ha : lit "5" <> []) by discriminate.
  apply (single_comma_amount
           (lit "I want conservative recommendations for $") (lit "5")
           (lit "000") (lit " please") eq_refl Ha eq_refl eq_refl eq_refl
           eq_refl).
Defined.

(** With the backend offline a recommendation request throws its fixed
    text. *)
Lemma thrown_message_names_operation_witness :
  exists call,
    effects (processMessage (H := BasicLatin.host) Scenario.offline
               BasicLatin.en_US (lit "recommend something")) = [call]
    /\ rejects Scenario.offline call = true
    /\ lit "Failed to get recommendations" = failure_text call.
Proof.
  apply (@thrown_message_names_operation BasicLatin.host Scenario.offline
           BasicLatin.en_US (lit "recommend something")
           (lit "Failed to get recommendations") eq_refl).
Defined.

(** A list of two blank slots is sent as two empty symbols. *)
Lemma bracketed_add_sends_every_slot_witness :
  effects (processMessage (H := BasicLatin.host) Scenario.offline
             BasicLatin.en_US (lit "add [ , ]"))
  = [CallAddCustomStocks [[]; []]]
  /\ length (extractStockSymbols (H := BasicLatin.host) (lit "add [ , ]"))
     = 2%nat.
Proof.
  apply (@bracketed_add_sends_every_slot BasicLatin.host Scenario.offline
           BasicLatin.en_US (lit "add [ , ]")
           {| whole := lit "[ , ]"; group1 := lit " , " |} []
           eq_refl eq_refl eq_refl).
Defined.

(** What the form sends for "AAPL, MSFT" is a list of symbols. *)
Lemma handleAddStocks_sends_symbols_witness :
  Instances.tickers <> []
  /\ NoDup Instances.tickers
  /\ forall symbol,
       In symbol Instances.tickers ->
       (1 <= length symbol <= 5)%nat /\ forallb isUpperAZ symbol = true.
Proof.
  apply (@handleAddStocks_sends_symbols BasicLatin.host Instances.unreachable
           (Instances.form (lit "AAPL, MSFT")) Instances.tickers).
  left. reflexivity.
Defined.

(** "aapl, msft" is refused. *)
Lemma handleAddStocks_refuses_lowercase_witness :
  StockManager.handleAddStocks (H := BasicLatin.host) Instances.unreachable
    (Instances.form (lit "aapl, msft"))
  = (StockManager.setMessage (Instances.form (lit "aapl, msft"))
       (Some {| StockManager.notice_type := StockManager.Error;
                StockManager.text := lit "Please enter valid stock symbols" |}),
     []).
Proof.
  apply (@handleAddStocks_refuses_lowercase BasicLatin.host
           Instances.unreachable (Instances.form (lit "aapl, msft"))
           eq_refl eq_refl eq_refl).
Defined.
